(** * Quality dashboard: the aggregation code of [src/App.tsx]

    A shallow embedding of the computations that the dashboard performs
    inline in its page components: the response filter ([filteredData]),
    the issue counters ([issuesCount], [destIssues]), the per-destination
    statistics ([destStats]), the impact aggregate of the impact-tracking
    page and the submit handler of the complete-action form.

    Conventions of the embedding.
    - A JavaScript [number] is an exact rational ([Q]); counters, which the
      code only ever increments from 0, are [nat]. Rounding of IEEE doubles
      is not modelled.
    - A [Record<string, V>] used as a dictionary is an association list in
      insertion order, which is the order [Object.entries] enumerates its
      keys in. Keys are issue tags: none of them is an array index or a
      property inherited from [Object.prototype].
    - [Array.prototype.sort] is stable; with a comparator that is
      consistent (as every comparator below is) its result is the stable
      sorted arrangement, computed here by insertion.
    - [Math.random] is an oracle: a sequence of draws, consumed in call
      order.
    - The complete-action form is submitted by its button: the browser
      checks the constraints that the controls declare, as the HTML
      standard defines them, and only then calls the handler. *)

From Stdlib Require Import List String Ascii Bool Arith ZArith QArith.
From Stdlib Require Import Lia Lqa Permutation Sorted DecimalString DecimalZ.
From Stdlib Require Import Qround DecimalNat.
Import ListNotations.

Local Open Scope string_scope.
Local Open Scope list_scope.

(** ** Types (App.tsx, lines 5-100) *)

Inductive ProductLine := WR | WRX.
Inductive Severity := LOW | MEDIUM | HIGH.
Inductive Period := Week | Month | Quarter.

Definition ProductLine_eqb (a b : ProductLine) : bool :=
  match a, b with
  | WR, WR | WRX, WRX => true
  | _, _ => false
  end.

Module Destination.
Record t := mk { id : string; name : string; country : string }.
End Destination.

Module Itinerary.
Record t := mk { id : string; name : string; destinationId : string }.
End Itinerary.

Module Tour.
Record t := mk {
  id : string;
  itineraryId : string;
  startDate : string;
  endDate : string;
  productLine : ProductLine;
  dmcName : string;
  coordinatorName : string }.
End Tour.

Module Scores.
Record t := mk {
  overall : Q;
  qp : Q;
  accommodation : Q;
  logistics : Q;
  preDepartureInfo : Q;
  coordinatorCourtesy : Q;
  coordinatorLeadership : Q;
  coordinatorOrganisation : Q }.
End Scores.

Module Comments.
Record t := mk {
  general : string;
  accommodationBad : string;
  logistics : string;
  coordinator : string }.
End Comments.

Module SurveyResponse.
Record t := mk {
  id : string;
  tourId : string;
  createdAt : string;
  scores : Scores.t;
  comments : Comments.t;
  domain : string }.
End SurveyResponse.

Module Tags.
Record t := mk { productTags : list string; coordinatorTags : list string }.
End Tags.

Module Annotation.
Record t := mk {
  responseId : string;
  tags : Tags.t;
  severity : Severity;
  confidence : Q;
  evidenceSnippets : list string }.
End Annotation.

Inductive ActionType :=
| DMC_CHANGE | COORDINATOR_TRAINING | ITINERARY_ADJUSTMENT
| ACCOMMODATION_UPGRADE | SUPPLIER_REVIEW | PROCESS_IMPROVEMENT.

Inductive Priority := PrioLOW | PrioMEDIUM | PrioHIGH | PrioCRITICAL.

Inductive Status := SUGGESTED | PLANNED | IN_PROGRESS | COMPLETED | CANCELLED.

Module SuggestedAction.
Record t := mk {
  id : string;
  destinationId : string;
  itineraryId : option string;
  issueTag : string;
  actionType : ActionType;
  description : string;
  priority : Priority;
  status : Status;
  createdAt : string;
  dueDate : string;
  owner : string;
  affectedTours : Z }.
End SuggestedAction.

(** The scores and percentages are finite numbers; a tour count is what
    [parseInt] returned for it, [None] being [NaN]. *)
Module ImpactMetrics.
Record t := mk {
  avgScoreBefore : Q;
  avgScoreAfter : Q;
  pctBelow8Before : Q;
  pctBelow8After : Q;
  toursBeforeAction : option Z;
  toursAfterAction : option Z }.
End ImpactMetrics.

Module CorrectiveAction.
Record t := mk {
  id : string;
  suggestedActionId : option string;
  destinationId : string;
  itineraryId : option string;
  issueTag : string;
  actionTaken : string;
  implementedAt : string;
  owner : string;
  notes : string;
  impactMetrics : ImpactMetrics.t }.
End CorrectiveAction.

(** The value type of [destIssues]: [{ count, severity }]. *)
Module SeverityCount.
Record t := mk { LOW : nat; MEDIUM : nat; HIGH : nat }.
Definition total (c : t) : nat := LOW c + MEDIUM c + HIGH c.
End SeverityCount.

(** [severity[s]++] *)
Definition incrSeverity (s : Severity) (c : SeverityCount.t) : SeverityCount.t :=
  match s with
  | LOW =>
      SeverityCount.mk (SeverityCount.LOW c + 1) (SeverityCount.MEDIUM c)
        (SeverityCount.HIGH c)
  | MEDIUM =>
      SeverityCount.mk (SeverityCount.LOW c) (SeverityCount.MEDIUM c + 1)
        (SeverityCount.HIGH c)
  | HIGH =>
      SeverityCount.mk (SeverityCount.LOW c) (SeverityCount.MEDIUM c)
        (SeverityCount.HIGH c + 1)
  end.

Module IssueCluster.
Record t := mk { count : nat; severity : SeverityCount.t }.
Definition zero : t := mk 0 (SeverityCount.mk 0 0 0).
End IssueCluster.

Module TopIssue.
Record t := mk { tag : string; count : nat; severity : SeverityCount.t }.
End TopIssue.

(** A row of [destStats]. *)
Module DestStat.
Record t := mk {
  dest : Destination.t;
  avg : Q;
  below8 : Q;
  delta : Q;
  topIssue : option TopIssue.t;
  totalReviews : nat }.
End DestStat.

(** The module-level collections: [destinations], [itineraries], [tours],
    [surveyResponses] and [annotations]. The last three are generated at
    load time, so every collection is an input of the model. *)
Record Dataset := mkDataset {
  destinations : list Destination.t;
  itineraries : list Itinerary.t;
  tours : list Tour.t;
  surveyResponses : list SurveyResponse.t;
  annotations : list Annotation.t }.

(** The filter state of [App] that the aggregations read. [productLine]
    is ['All' | ProductLine]: [None] stands for ['All']. *)
Record Filters := mkFilters {
  onlyBelow8 : bool;
  filterDestination : string;
  productLine : option ProductLine }.

(** ** JavaScript primitives *)

(** [x < y] on numbers. *)
Definition Qltb (x y : Q) : bool := negb (Qle_bool y x).

(** [arr.includes(x)] on an array of strings. *)
Definition includes (l : list string) (x : string) : bool :=
  existsb (String.eqb x) l.

(** A character among [0] ... [9]. *)
Definition isDigit (c : ascii) : bool :=
  (48 <=? nat_of_ascii c)%nat && (nat_of_ascii c <=? 57)%nat.

(** [n] as a number, for a length or a counter. *)
Definition ofNat (n : nat) : Q := inject_Z (Z.of_nat n).

Section Sort.
Context {A : Type}.
(** [pos a b] says that the comparator applied to [(a, b)] is positive,
    that is, [a] has to come after [b]. *)
Variable pos : A -> A -> bool.

Fixpoint js_insert (x : A) (l : list A) : list A :=
  match l with
  | [] => [x]
  | y :: l' => if pos x y then y :: js_insert x l' else x :: y :: l'
  end.

(** [arr.sort(cmp)]: each element, taken from the right, moves past the
    elements it must follow and stops at the first one it need not. *)
Fixpoint js_sort (l : list A) : list A :=
  match l with
  | [] => []
  | x :: l' => js_insert x (js_sort l')
  end.
End Sort.

(** The comparator [(a, b) => key(b) - key(a)] on counters: its value is
    positive when [b] has the larger counter. *)
Definition descending {A : Type} (key : A -> nat) (a b : A) : bool :=
  (0 <? Z.of_nat (key b) - Z.of_nat (key a))%Z.

Section Dictionary.
Context {V : Type}.

(** [obj[k]] on a dictionary: [None] is [undefined]. *)
Fixpoint lookup (k : string) (m : list (string * V)) : option V :=
  match m with
  | [] => None
  | (k', v) :: m' => if String.eqb k' k then Some v else lookup k m'
  end.

(** [obj[k] = f(obj[k])]: an existing key keeps its place, a new key is
    added after all the others. *)
Fixpoint upd (k : string) (f : option V -> V) (m : list (string * V))
  : list (string * V) :=
  match m with
  | [] => [(k, f None)]
  | (k', v) :: m' =>
      if String.eqb k' k then (k', f (Some v)) :: m'
      else (k', v) :: upd k f m'
  end.
End Dictionary.

(** ** Filtering (OverviewPage, lines 541-560; DestinationsPage, 758-777) *)

Section Aggregation.
Variable db : Dataset.
Variable flt : Filters.

Definition toursOfDestination (destId : string) : list string :=
  let destItineraries :=
    map Itinerary.id
      (filter (fun i => String.eqb (Itinerary.destinationId i) destId)
         (itineraries db)) in
  map Tour.id
    (filter (fun t => includes destItineraries (Tour.itineraryId t))
       (tours db)).

Definition isBelow8 (r : SurveyResponse.t) : bool :=
  Qltb (Scores.overall (SurveyResponse.scores r)) 8.

Definition filteredData : list SurveyResponse.t :=
  let filtered := surveyResponses db in
  let filtered :=
    if onlyBelow8 flt then filter isBelow8 filtered else filtered in
  let filtered :=
    if negb (String.eqb (filterDestination flt) "All") then
      let destTours := toursOfDestination (filterDestination flt) in
      filter (fun r => includes destTours (SurveyResponse.tourId r)) filtered
    else filtered in
  let filtered :=
    match productLine flt with
    | Some pl =>
        let plTours :=
          map Tour.id
            (filter (fun t => ProductLine_eqb (Tour.productLine t) pl)
               (tours db)) in
        filter (fun r => includes plTours (SurveyResponse.tourId r)) filtered
    | None => filtered
    end in
  filtered.

(** ** Issue counters *)

(** [annotations.find(a => a.responseId === r.id)] *)
Definition findAnnotation (r : SurveyResponse.t) : option Annotation.t :=
  find (fun a => String.eqb (Annotation.responseId a) (SurveyResponse.id r))
    (annotations db).

(** [[...ann.tags.productTags, ...ann.tags.coordinatorTags]] *)
Definition allTags (ann : Annotation.t) : list string :=
  Tags.productTags (Annotation.tags ann)
    ++ Tags.coordinatorTags (Annotation.tags ann).

(** [issuesCount[tag] = (issuesCount[tag] || 0) + 1] *)
Definition bump (m : list (string * nat)) (tag : string)
  : list (string * nat) :=
  upd tag (fun old => match old with Some n => n + 1 | None => 0 + 1 end)%nat m.

(** The callback of [filteredData.forEach] (lines 571-578). *)
Definition countResponse (issuesCount : list (string * nat))
    (r : SurveyResponse.t) : list (string * nat) :=
  match findAnnotation r with
  | Some ann => fold_left bump (allTags ann) issuesCount
  | None => issuesCount
  end.

(** OverviewPage, lines 570-578. *)
Definition issuesCountOf (rs : list SurveyResponse.t) : list (string * nat) :=
  fold_left countResponse rs [].

Definition issuesCount : list (string * nat) := issuesCountOf filteredData.

(** [Object.entries(issuesCount).sort((a, b) => b[1] - a[1])] *)
Definition rankIssues (entries : list (string * nat)) : list (string * nat) :=
  js_sort (descending snd) entries.

(** Line 580: element 0 of the ranking, [None] for [undefined]. *)
Definition topIssue : option (string * nat) := hd_error (rankIssues issuesCount).

(** [destIssues[tag]], created as [{ count: 0, severity: { LOW: 0,
    MEDIUM: 0, HIGH: 0 } }] on first use, then [count++] and
    [severity[ann.severity]++] (lines 599-603, 796-800, 1194-1198). *)
Definition recordIssue (sev : Severity) (m : list (string * IssueCluster.t))
    (tag : string) : list (string * IssueCluster.t) :=
  upd tag
    (fun old =>
       let e := match old with Some e => e | None => IssueCluster.zero end in
       IssueCluster.mk (IssueCluster.count e + 1)
         (incrSeverity sev (IssueCluster.severity e)))
    m.

(** The callback of [destResponses.forEach] (lines 596-605). *)
Definition clusterResponse (destIssues : list (string * IssueCluster.t))
    (r : SurveyResponse.t) : list (string * IssueCluster.t) :=
  match findAnnotation r with
  | Some ann =>
      fold_left (recordIssue (Annotation.severity ann)) (allTags ann) destIssues
  | None => destIssues
  end.

(** The loop of lines 595-605 over [destResponses]; the same loop fills
    [issuesCount] of DestinationPage (lines 1190-1200). *)
Definition destIssuesOf (rs : list SurveyResponse.t)
  : list (string * IssueCluster.t) :=
  fold_left clusterResponse rs [].

(** [Object.entries(destIssues).sort((a, b) => b[1].count - a[1].count)] *)
Definition rankClusters (entries : list (string * IssueCluster.t))
  : list (string * IssueCluster.t) :=
  js_sort (descending (fun e => IssueCluster.count (snd e))) entries.

(** ** Per-destination statistics (lines 582-616 and 779-814) *)

Definition destResponses (dest : Destination.t) : list SurveyResponse.t :=
  let destTours := toursOfDestination (Destination.id dest) in
  filter (fun r => includes destTours (SurveyResponse.tourId r)) filteredData.

(** [rs.reduce((sum, r) => sum + r.scores.overall, 0)] *)
Definition sumOverall (rs : list SurveyResponse.t) : Q :=
  fold_left (fun sum r => sum + Scores.overall (SurveyResponse.scores r)) rs 0.

Definition avgOf (rs : list SurveyResponse.t) : Q :=
  if (0 <? List.length rs)%nat then sumOverall rs / ofNat (List.length rs) else 0.

Definition below8Of (rs : list SurveyResponse.t) : Q :=
  if (0 <? List.length rs)%nat
  then (ofNat (List.length (filter isBelow8 rs)) / ofNat (List.length rs)) * 100
  else 0.

(** The callback of [destinations.map]; [u] is the value its one call
    of [Math.random] returns. The OverviewPage builds the same object
    without [totalReviews]. *)
Definition destStat (dest : Destination.t) (u : Q) : DestStat.t :=
  let rs := destResponses dest in
  let topDestIssue := hd_error (rankClusters (destIssuesOf rs)) in
  DestStat.mk dest (avgOf rs) (below8Of rs)
    ((u - 0.7) * 2)
    (match topDestIssue with
     | Some e =>
         Some (TopIssue.mk (fst e) (IssueCluster.count (snd e))
                 (IssueCluster.severity (snd e)))
     | None => None
     end)
    (List.length rs).

(** [rand] is the sequence of values [Math.random] returns, [calls] the
    number of draws already made. *)
Variable rand : nat -> Q.

Fixpoint mapDestinations (ds : list Destination.t) (calls : nat)
  : list DestStat.t :=
  match ds with
  | [] => []
  | dest :: ds' => destStat dest (rand calls) :: mapDestinations ds' (S calls)
  end.

(** [.filter(s => s.avg > 0).sort((a, b) => a.delta - b.delta)] *)
Definition destStats : list DestStat.t :=
  js_sort (fun a b => Qltb 0 (DestStat.delta a - DestStat.delta b))
    (filter (fun s => Qltb 0 (DestStat.avg s))
       (mapDestinations (destinations db) 0)).

End Aggregation.

(** ** Impact aggregate (ImpactTrackingPage, lines 1025-1031, 1060-1061) *)

Definition scoreDelta (action : CorrectiveAction.t) : Q :=
  ImpactMetrics.avgScoreAfter (CorrectiveAction.impactMetrics action)
  - ImpactMetrics.avgScoreBefore (CorrectiveAction.impactMetrics action).

Definition pctDelta (action : CorrectiveAction.t) : Q :=
  ImpactMetrics.pctBelow8Before (CorrectiveAction.impactMetrics action)
  - ImpactMetrics.pctBelow8After (CorrectiveAction.impactMetrics action).

Definition totalAvgImprovement (filteredActions : list CorrectiveAction.t) : Q :=
  if (0 <? List.length filteredActions)%nat
  then
    fold_left
      (fun sum a =>
         sum + (ImpactMetrics.avgScoreAfter (CorrectiveAction.impactMetrics a)
                - ImpactMetrics.avgScoreBefore (CorrectiveAction.impactMetrics a)))
      filteredActions 0
    / ofNat (List.length filteredActions)
  else 0.

Definition totalPctImprovement (filteredActions : list CorrectiveAction.t) : Q :=
  if (0 <? List.length filteredActions)%nat
  then
    fold_left
      (fun sum a =>
         sum + (ImpactMetrics.pctBelow8Before (CorrectiveAction.impactMetrics a)
                - ImpactMetrics.pctBelow8After (CorrectiveAction.impactMetrics a)))
      filteredActions 0
    / ofNat (List.length filteredActions)
  else 0.

(** ** The complete-action form (lines 1975-2005) *)

Inductive Page :=
| PageOverview | PageDestination | PageTour | PageActions | PageImpact
| PageDestinations.

(** The part of the state of [App] that the submit handler reads and
    sets. [selectedActionId] is [string | null]. *)
Record AppState := mkAppState {
  completedActionsState : list CorrectiveAction.t;
  showCompleteActionModal : bool;
  selectedActionId : option string;
  currentPage : Page }.

(** What the handler reads from the [FormData]: the three text fields as
    they are, the result of [parseFloat] for the four scores and
    percentages, the result of [parseInt] for the two tour counts, where
    [None] is [NaN]. *)
Module FormValues.
Record t := mk {
  actionTaken : string;
  implementedAt : string;
  notes : string;
  avgScoreBefore : Q;
  avgScoreAfter : Q;
  pctBelow8Before : Q;
  pctBelow8After : Q;
  toursBeforeAction : option Z;
  toursAfterAction : option Z }.
End FormValues.

(** [`ca-${Date.now()}`], [now] being the clock reading in milliseconds. *)
Definition newId (now : Z) : string :=
  ("ca-" ++ NilEmpty.string_of_int (Z.to_int now))%string.

Definition newCorrectiveAction (action : SuggestedAction.t) (now : Z)
    (form : FormValues.t) : CorrectiveAction.t :=
  CorrectiveAction.mk
    (newId now)
    (Some (SuggestedAction.id action))
    (SuggestedAction.destinationId action)
    (SuggestedAction.itineraryId action)
    (SuggestedAction.issueTag action)
    (FormValues.actionTaken form)
    (FormValues.implementedAt form)
    (SuggestedAction.owner action)
    (FormValues.notes form)
    (ImpactMetrics.mk
       (FormValues.avgScoreBefore form)
       (FormValues.avgScoreAfter form)
       (FormValues.pctBelow8Before form)
       (FormValues.pctBelow8After form)
       (FormValues.toursBeforeAction form)
       (FormValues.toursAfterAction form)).

(** [suggestedActions.find(a => a.id === selectedActionId)] *)
Definition selectedSuggestedAction (suggestedActions : list SuggestedAction.t)
    (st : AppState) : option SuggestedAction.t :=
  match selectedActionId st with
  | Some sel =>
      find (fun a => String.eqb (SuggestedAction.id a) sel) suggestedActions
  | None => None
  end.

(** The [onSubmit] handler as a state transformer. *)
Definition onSubmit (suggestedActions : list SuggestedAction.t) (now : Z)
    (form : FormValues.t) (st : AppState) : AppState :=
  match selectedSuggestedAction suggestedActions st with
  | None => st
  | Some action =>
      mkAppState
        (newCorrectiveAction action now form :: completedActionsState st)
        false None PageImpact
  end.

(** ** The controls of the form (lines 2008-2123)

    The form has no [noValidate]: a press of its submit button first
    checks the [required], [min], [max] and [step] attributes of its
    controls, and the handler runs only when every control passes. *)

(** The [FormData] of the form: the value of each named control. The
    value of a number input is empty or a valid floating-point number;
    whatever else is typed, the browser hands over as the empty string. *)
Module FormData.
Record t := mk {
  actionTaken : string;
  implementedAt : string;
  toursAfterAction : string;
  avgScoreBefore : string;
  avgScoreAfter : string;
  pctBelow8Before : string;
  pctBelow8After : string;
  toursBeforeAction : string;
  notes : string }.
End FormData.
















(** ** The period delta as the design document words it

    These definitions follow the text of the design (section 4.4), not the
    code: they are what [DestStat.delta] is compared with. *)

Definition spec_digits (s : string) : Z :=
  (fix go (s : string) (acc : Z) : Z :=
     match s with
     | EmptyString => acc
     | String c s' => go s' (10 * acc + (Z.of_nat (nat_of_ascii c) - 48))%Z
     end) s 0%Z.

(** Days from 1970-01-01 to the ISO date [YYYY-MM-DD]. *)
Definition spec_dayNumber (iso : string) : Z :=
  let y := spec_digits (substring 0 4 iso) in
  let m := spec_digits (substring 5 2 iso) in
  let d := spec_digits (substring 8 2 iso) in
  let y := if (m <=? 2)%Z then (y - 1)%Z else y in
  let era := (y / 400)%Z in
  let yoe := (y - era * 400)%Z in
  let doy := ((153 * (if (2 <? m)%Z then m - 3 else m + 9) + 2) / 5 + d - 1)%Z in
  let doe := (yoe * 365 + yoe / 4 - yoe / 100 + doy)%Z in
  (era * 146097 + doe - 719468)%Z.

(** The fixed epoch: the first tour date of the data horizon. *)
Definition spec_epoch : string := "2024-11-01".

Definition spec_bucketLength (p : Period) : Z :=
  match p with Week => 7 | Month => 30 | Quarter => 90 end.

(** floor(days-since-epoch / bucket-length-in-days) *)
Definition spec_bucketIndex (p : Period) (t : Tour.t) : Z :=
  ((spec_dayNumber (Tour.startDate t) - spec_dayNumber spec_epoch)
   / spec_bucketLength p)%Z.

Section SpecDelta.
Variable db : Dataset.
Variable flt : Filters.
Variable p : Period.

(** The responses of a destination, under the filters, whose tour
    starts in bucket [k]. *)
Definition spec_periodResponses (k : Z) (dest : Destination.t)
  : list SurveyResponse.t :=
  filter
    (fun r =>
       match find (fun t => String.eqb (Tour.id t) (SurveyResponse.tourId r))
               (tours db) with
       | Some t => (spec_bucketIndex p t =? k)%Z
       | None => false
       end)
    (destResponses db flt dest).

(** avgOverall(current period) - avgOverall(previous period), undefined
    ([None]) for a destination with no data in the previous period. *)
Definition spec_delta (k : Z) (dest : Destination.t) : option Q :=
  match spec_periodResponses (k - 1) dest with
  | [] => None
  | _ :: _ =>
      Some (avgOf (spec_periodResponses k dest)
            - avgOf (spec_periodResponses (k - 1) dest))
  end.
End SpecDelta.

Local Close Scope Q_scope.

(** ** Vocabulary of the statements *)

(** The counter that a dictionary value carries, 0 for a missing key. *)
Definition measure {V : Type} (mu : V -> nat) (o : option V) : nat :=
  match o with Some v => mu v | None => O end.

(** The sum of the counters of all the keys. *)
Definition totalOf {V : Type} (mu : V -> nat) (m : list (string * V)) : nat :=
  list_sum (map (fun e => mu (snd e)) m).

(** [issuesCount[tag] || 0] *)
Definition countOf (tag : string) (issuesCount : list (string * nat)) : nat :=
  measure (fun n => n) (lookup tag issuesCount).

(** The tags a response contributes: those of its annotation, none when
    it has no annotation. *)
Definition responseTags (db : Dataset) (r : SurveyResponse.t) : list string :=
  match findAnnotation db r with
  | Some ann => allTags ann
  | None => []
  end.

Definition isAnnotated (db : Dataset) (r : SurveyResponse.t) : bool :=
  match findAnnotation db r with Some _ => true | None => false end.

Definition annotatedCount (db : Dataset) (rs : list SurveyResponse.t) : nat :=
  List.length (filter (isAnnotated db) rs).

(** A cluster whose severity buckets add up to its count. *)
Definition balanced (e : string * IssueCluster.t) : Prop :=
  SeverityCount.LOW (IssueCluster.severity (snd e))
  + SeverityCount.MEDIUM (IssueCluster.severity (snd e))
  + SeverityCount.HIGH (IssueCluster.severity (snd e))
  = IssueCluster.count (snd e).

(** The tags the scan of [rs] meets, in the order it meets them. *)
Definition scannedTags (db : Dataset) (rs : list SurveyResponse.t)
  : list string :=
  flat_map (responseTags db) rs.

(** How often [tag] occurs among [tags]. *)
Definition occurrences (tags : list string) (tag : string) : nat :=
  count_occ string_dec tags tag.

(** The distinct tags of a scan in the order of their first occurrence. *)
Definition noteTag (seen : list string) (tag : string) : list string :=
  if includes seen tag then seen else seen ++ [tag].

Definition firstSeen (tags : list string) : list string :=
  fold_left noteTag tags [].

(** Each distinct tag with the number of its occurrences, in the order
    the tags were first met. *)
Definition tally (tags : list string) : list (string * nat) :=
  map (fun tag => (tag, occurrences tags tag)) (firstSeen tags).

(** The tag met first among those that occur most often, with the number
    of its occurrences; none when the scan meets no tag. *)
Definition firstMostFrequent (tags : list string) : option (string * nat) :=
  option_map (fun tag => (tag, occurrences tags tag))
    (find
       (fun tag =>
          (occurrences tags tag =? list_max (map (occurrences tags) tags))%nat)
       tags).

(** Property names for which a dictionary is faithful to a JavaScript
    object: [Object.entries] lists the keys that look like array indices
    first, in numeric order, and a name that [Object.prototype] defines
    is found on an empty object. A name made of digits only is counted
    as index-like. *)
Definition indexLike (key : string) : bool :=
  negb (String.eqb key "") && forallb isDigit (list_ascii_of_string key).

Definition inheritedNames : list string :=
  ["constructor"; "__proto__"; "hasOwnProperty"; "isPrototypeOf";
   "propertyIsEnumerable"; "toLocaleString"; "toString"; "valueOf";
   "__defineGetter__"; "__defineSetter__"; "__lookupGetter__";
   "__lookupSetter__"].

Definition plainKey (key : string) : Prop :=
  indexLike key = false /\ ~ In key inheritedNames.

(** Every tag of every annotation of the dataset is such a name. *)
Definition plainTags (db : Dataset) : Prop :=
  Forall (fun a => Forall plainKey (allTags a)) (annotations db).

(** [ranked] arranges [entries] by [key] descending, entries of equal
    key staying in the order they have in [entries]; its head is then the
    first entry of [entries] whose key is the largest. *)
Definition stableDescending {A : Type} (key : A -> nat)
    (entries ranked : list A) : Prop :=
  StronglySorted (fun a b => key b <= key a) ranked
  /\ Permutation entries ranked
  /\ (forall c,
        filter (fun e => (key e =? c)%nat) ranked = filter (fun e => (key e =? c)%nat) entries)
  /\ hd_error ranked
     = find (fun e => (key e =? list_max (map key entries))%nat) entries.

(** The arithmetic mean of a list of numbers. *)
Definition Qsum (l : list Q) : Q := fold_right Qplus 0%Q l.

Definition mean (l : list Q) : Q := (Qsum l / ofNat (List.length l))%Q.

Definition overallOf (r : SurveyResponse.t) : Q :=
  Scores.overall (SurveyResponse.scores r).

(** [r] belongs to [dest] through the chain response -> tour ->
    itinerary -> destination. *)
Definition mappedTo (db : Dataset) (r : SurveyResponse.t) (dest : Destination.t)
  : Prop :=
  exists t i,
    In t (tours db) /\ In i (itineraries db)
    /\ Tour.id t = SurveyResponse.tourId r
    /\ Tour.itineraryId t = Itinerary.id i
    /\ Itinerary.destinationId i = Destination.id dest.



(** [Math.random] returns a number in [0, 1). *)
Definition validOracle (rand : nat -> Q) : Prop :=
  forall n, (0 <= rand n /\ rand n < 1)%Q.

(** ** Sample data

    Small datasets in the shape [generateTours] and [generateSurveys]
    produce: one destination, one itinerary, tours named after the
    itinerary and the week, responses named after the tour. *)

Definition sampleResponse (id tourId date : string) (overall : Q)
  : SurveyResponse.t :=
  SurveyResponse.mk id tourId date
    (Scores.mk overall (overall + 1) (overall - 1) overall 8 overall
       (overall + 1) overall)
    (Comments.mk "Some aspects could be improved" "" "" "")
    "weroad.com".

Definition sampleTour (id itineraryId startDate endDate : string) : Tour.t :=
  Tour.mk id itineraryId startDate endDate WR "Local Connect" "Sarah M.".

Definition sampleAnnotation (responseId : string)
    (productTags coordinatorTags : list string) (sev : Severity)
  : Annotation.t :=
  Annotation.mk responseId (Tags.mk productTags coordinatorTags) sev 0.9%Q
    ["Minor logistics delays"].

(** The initial state of the filters (lines 404-409). *)
Definition defaultFilters : Filters := mkFilters true "All" None.

(** One response below 8 whose annotation carries the given tags. *)
Definition oneResponseDb (productTags coordinatorTags : list string) : Dataset :=
  mkDataset
    [Destination.mk "d1" "Bali" "Indonesia"]
    [Itinerary.mk "i1" "Bali Beach & Culture" "d1"]
    [sampleTour "t-i1-w0" "i1" "2024-11-01" "2024-11-08"]
    [sampleResponse "r-t-i1-w0-0" "t-i1-w0" "2024-11-01" 7%Q]
    [sampleAnnotation "r-t-i1-w0-0" productTags coordinatorTags LOW].

(** Three destinations over the first two weeks of the data horizon.
    Bali has a response below 8 in each week; Iceland has one only in the
    second week (the one of its first week scores 9); Jordan has none. *)
Definition trendDb : Dataset :=
  mkDataset
    [Destination.mk "d1" "Bali" "Indonesia";
     Destination.mk "d2" "Iceland" "Iceland";
     Destination.mk "d3" "Jordan" "Jordan"]
    [Itinerary.mk "i1" "Bali Beach & Culture" "d1";
     Itinerary.mk "i3" "Iceland Ring Road" "d2";
     Itinerary.mk "i5" "Jordan Desert Explorer" "d3"]
    [sampleTour "t-i1-w0" "i1" "2024-11-01" "2024-11-08";
     sampleTour "t-i3-w0" "i3" "2024-11-01" "2024-11-08";
     sampleTour "t-i5-w0" "i5" "2024-11-01" "2024-11-08";
     sampleTour "t-i1-w1" "i1" "2024-11-08" "2024-11-15";
     sampleTour "t-i3-w1" "i3" "2024-11-08" "2024-11-15"]
    [sampleResponse "r-t-i1-w0-0" "t-i1-w0" "2024-11-01" 7%Q;
     sampleResponse "r-t-i3-w0-0" "t-i3-w0" "2024-11-01" 9%Q;
     sampleResponse "r-t-i5-w0-0" "t-i5-w0" "2024-11-01" 8%Q;
     sampleResponse "r-t-i1-w1-0" "t-i1-w1" "2024-11-08" 5%Q;
     sampleResponse "r-t-i3-w1-0" "t-i3-w1" "2024-11-08" 6%Q]
    [sampleAnnotation "r-t-i1-w0-0" ["poor_accommodation_quality"] [] LOW;
     sampleAnnotation "r-t-i1-w1-0" ["cleanliness_hygiene"] [] HIGH;
     sampleAnnotation "r-t-i3-w1-0" ["logistics_failures"] [] MEDIUM].

Definition bali : Destination.t := Destination.mk "d1" "Bali" "Indonesia".
Definition iceland : Destination.t := Destination.mk "d2" "Iceland" "Iceland".
Definition jordan : Destination.t := Destination.mk "d3" "Jordan" "Jordan".

(** An oracle whose every draw is one half. *)
Definition halfOracle : nat -> Q := fun _ => 0.5%Q.

(** One destination whose only response scores 0 overall. *)
Definition zeroDb : Dataset :=
  mkDataset
    [bali]
    [Itinerary.mk "i1" "Bali Beach & Culture" "d1"]
    [sampleTour "t-i1-w0" "i1" "2024-11-01" "2024-11-08"]
    [sampleResponse "r-t-i1-w0-0" "t-i1-w0" "2024-11-01" 0%Q]
    [sampleAnnotation "r-t-i1-w0-0" ["poor_accommodation_quality"] [] HIGH].

(** The [suggestedActions] of the source (lines 228-311). *)
Definition suggestedActions : list SuggestedAction.t :=
  [SuggestedAction.mk "sa-1" "d1" (Some "i1") "poor_accommodation_quality"
     ACCOMMODATION_UPGRADE
     "Review and upgrade hotel in Ubud - multiple complaints about cleanliness and amenities"
     PrioHIGH IN_PROGRESS "2024-12-01" "2025-01-15" "Anna P." 8;
   SuggestedAction.mk "sa-2" "d2" (Some "i3") "logistics_failures"
     SUPPLIER_REVIEW
     "Replace bus transfer provider - consistent delays and vehicle quality issues"
     PrioCRITICAL PLANNED "2024-12-05" "2024-12-20" "Marco R." 12;
   SuggestedAction.mk "sa-3" "d3" None "weak_leadership_decision_making"
     COORDINATOR_TRAINING
     "Organize leadership workshop for Jordan coordinators - focus on crisis management"
     PrioMEDIUM SUGGESTED "2024-12-10" "2025-01-30" "Lisa K." 6;
   SuggestedAction.mk "sa-4" "d4" (Some "i6") "itinerary_changes_cancellations"
     ITINERARY_ADJUSTMENT
     "Adjust timing of Fez market visit to avoid peak hours and reduce overcrowding"
     PrioMEDIUM COMPLETED "2024-11-15" "2024-12-01" "Ahmed B." 5;
   SuggestedAction.mk "sa-5" "d4" (Some "i7") "cleanliness_hygiene"
     DMC_CHANGE
     "Switch DMC for Sahara camp accommodation - hygiene standards not met"
     PrioHIGH IN_PROGRESS "2024-12-08" "2025-01-10" "Emma T." 9;
   SuggestedAction.mk "sa-6" "d5" None "poor_value_for_money"
     PROCESS_IMPROVEMENT
     "Renegotiate pricing with local suppliers and review included activities"
     PrioLOW SUGGESTED "2024-12-12" "2025-02-15" "Paolo G." 4].

(** The [correctiveActions] of the source (lines 314-388), the initial
    value of [completedActionsState]. *)
Definition correctiveActions : list CorrectiveAction.t :=
  [CorrectiveAction.mk "ca-1" (Some "sa-4") "d4" (Some "i6")
     "itinerary_changes_cancellations"
     "Changed Fez market visit timing from 2pm to 9am, reducing crowd exposure"
     "2024-12-01" "Ahmed B."
     "Coordinated with local guides. Early morning timing received positive feedback."
     (ImpactMetrics.mk 6.8%Q 7.9%Q 65%Q 28%Q (Some 8%Z) (Some 6%Z));
   CorrectiveAction.mk "ca-2" None "d1" (Some "i2") "logistics_failures"
     "Switched to new transport provider with newer vehicles and backup fleet"
     "2024-11-20" "Sarah M."
     "New provider has 4.8/5 rating. No delays reported in subsequent tours."
     (ImpactMetrics.mk 6.5%Q 8.1%Q 72%Q 15%Q (Some 10%Z) (Some 7%Z));
   CorrectiveAction.mk "ca-3" None "d6" (Some "i9") "poor_accommodation_quality"
     "Upgraded Split accommodation from 3-star to 4-star boutique hotel"
     "2024-11-10" "Sofia L."
     "Negotiated group rate. Slight cost increase offset by improved satisfaction scores."
     (ImpactMetrics.mk 7.1%Q 8.4%Q 58%Q 12%Q (Some 9%Z) (Some 8%Z));
   CorrectiveAction.mk "ca-4" None "d3" (Some "i5") "communication_clarity_issues"
     "Provided coordinators with detailed pre-departure info templates and communication training"
     "2024-11-25" "Lisa K."
     "Training included role-play scenarios. Coordinators report feeling more confident."
     (ImpactMetrics.mk 7.3%Q 8.0%Q 48%Q 22%Q (Some 7%Z) (Some 5%Z))].

(** The state in which the complete-action form of suggestion [sa-1] is
    open. *)
Definition formOpenState : AppState :=
  mkAppState correctiveActions true (Some "sa-1") PageActions.

(** The form as it is first shown, with its default values. *)
Definition defaultForm : FormValues.t :=
  FormValues.mk "Upgraded the hotel in Ubud" "2025-01-10" ""
    6.5%Q 8.0%Q 60%Q 25%Q (Some 8%Z) (Some 5%Z).





(** * The rest of the dashboard

    The computations of the pages and dialogs that the statistics above
    feed or sit beside. *)

Local Open Scope Q_scope.

(** ** Division by an array length

    A finite sum divided by a length is finite when the length is
    positive; by the length 0 it is [NaN] (for the sum 0) or an
    infinity. *)

Inductive number := NaN | PosInfinity | NegInfinity | Finite (q : Q).

Definition divByLength (x : Q) (n : nat) : number :=
  match n with
  | O =>
      if Qeq_bool x 0 then NaN
      else if Qltb 0 x then PosInfinity else NegInfinity
  | S _ => Finite (x / ofNat n)
  end.

(** ** Sets

    [new Set(arr)] keeps the first occurrence of each value, in the order
    of the array. *)

Definition setAdd {A : Type} (eqb : A -> A -> bool) (s : list A) (x : A)
  : list A :=
  if existsb (eqb x) s then s else s ++ [x].

Definition setFrom {A : Type} (eqb : A -> A -> bool) (l : list A) : list A :=
  fold_left (setAdd eqb) l [].

(** ** Summary cards (OverviewPage, line 633; DestinationsPage, 820-838) *)

Section SummaryCards.
Variable db : Dataset.
Variable flt : Filters.
Variable rand : nat -> Q.



(** [destStats.reduce((sum, s) => sum + s.avg, 0) / destStats.length],
    before [toFixed]. *)
Definition destinationsAvg : number :=
  divByLength
    (fold_left (fun sum s => sum + DestStat.avg s) (destStats db flt rand) 0)
    (List.length (destStats db flt rand)).
End SummaryCards.

(** ** Issue details dialog (lines 1529-1557) *)

Section IssueDialog.
Variable db : Dataset.
Variable flt : Filters.
Variable selectedIssueTag : string.

(** The dialog filters the responses anew, in one pass, and does not
    read [productLine]. *)
Definition dialogFilteredData : list SurveyResponse.t :=
  filter
    (fun r =>
       if onlyBelow8 flt && Qle_bool 8 (Scores.overall (SurveyResponse.scores r))
       then false
       else if negb (String.eqb (filterDestination flt) "All") then
         let destTours := toursOfDestination db (filterDestination flt) in
         if negb (includes destTours (SurveyResponse.tourId r)) then false
         else true
       else true)
    (surveyResponses db).

Definition issueResponses : list SurveyResponse.t :=
  filter
    (fun r =>
       match findAnnotation db r with
       | Some ann => includes (allTags ann) selectedIssueTag
       | None => false
       end)
    dialogFilteredData.

Definition severityCount : SeverityCount.t :=
  fold_left
    (fun severityCount r =>
       match findAnnotation db r with
       | Some ann => incrSeverity (Annotation.severity ann) severityCount
       | None => severityCount
       end)
    issueResponses (SeverityCount.mk 0 0 0).

(** [tours.find(t => t.id === r.tourId)] *)
Definition findTour (tourId : string) : option Tour.t :=
  find (fun t => String.eqb (Tour.id t) tourId) (tours db).

(** [itineraries.find(i => i.id === tour?.itineraryId)?.destinationId]:
    [None] is [undefined]. *)
Definition destinationIdOf (r : SurveyResponse.t) : option string :=
  match findTour (SurveyResponse.tourId r) with
  | Some tour =>
      match find (fun i => String.eqb (Itinerary.id i) (Tour.itineraryId tour))
              (itineraries db) with
      | Some itinerary => Some (Itinerary.destinationId itinerary)
      | None => None
      end
  | None => None
  end.

(** [new Set(issueResponses.map(...))], listed in the order
    [Array.from] gives. *)
Definition affectedDestinations : list (option string) :=
  setFrom (fun a b =>
             match a, b with
             | Some x, Some y => String.eqb x y
             | None, None => true
             | _, _ => false
             end)
    (map destinationIdOf issueResponses).
End IssueDialog.

(** ** Suggested actions page (lines 913-926) *)

Definition priorityOrder (p : Priority) : Z :=
  match p with
  | PrioCRITICAL => 0
  | PrioHIGH => 1
  | PrioMEDIUM => 2
  | PrioLOW => 3
  end.

Definition Status_eqb (a b : Status) : bool :=
  match a, b with
  | SUGGESTED, SUGGESTED | PLANNED, PLANNED | IN_PROGRESS, IN_PROGRESS
  | COMPLETED, COMPLETED | CANCELLED, CANCELLED => true
  | _, _ => false
  end.

Module StatusCounts.
Record t := mk { suggested : nat; planned : nat; inProgress : nat; completed : nat }.
End StatusCounts.

Section ActionsPage.
Variable flt : Filters.
Variable suggestedActions : list SuggestedAction.t.

Definition listedActions : list SuggestedAction.t :=
  js_sort
    (fun a b =>
       (0 <? priorityOrder (SuggestedAction.priority a)
             - priorityOrder (SuggestedAction.priority b))%Z)
    (filter
       (fun action =>
          String.eqb (filterDestination flt) "All"
          || String.eqb (SuggestedAction.destinationId action)
               (filterDestination flt))
       suggestedActions).

Definition countStatus (s : Status) : nat :=
  List.length
    (filter (fun a => Status_eqb (SuggestedAction.status a) s) listedActions).

Definition statusCounts : StatusCounts.t :=
  StatusCounts.mk (countStatus SUGGESTED) (countStatus PLANNED)
    (countStatus IN_PROGRESS) (countStatus COMPLETED).
End ActionsPage.

(** ** Destination page (lines 1157-1163, 1190-1206) *)

Module EvidenceItem.
Record t := mk {
  response : SurveyResponse.t;
  annotation : option Annotation.t;
  tour : option Tour.t }.
End EvidenceItem.

Section DestinationPage.
Variable db : Dataset.
Variable selectedDestinationId : string.

Definition pageItineraries : list Itinerary.t :=
  filter (fun i => String.eqb (Itinerary.destinationId i) selectedDestinationId)
    (itineraries db).

Definition pageTours : list Tour.t :=
  filter
    (fun t => includes (map Itinerary.id pageItineraries) (Tour.itineraryId t))
    (tours db).

Definition pageResponses : list SurveyResponse.t :=
  filter (fun r => includes (map Tour.id pageTours) (SurveyResponse.tourId r))
    (surveyResponses db).

(** [destResponses.slice(0, 10).map(...).filter(item => item.annotation)] *)
Definition evidenceItems : list EvidenceItem.t :=
  filter
    (fun item =>
       match EvidenceItem.annotation item with Some _ => true | None => false end)
    (map
       (fun r =>
          EvidenceItem.mk r (findAnnotation db r)
            (findTour db (SurveyResponse.tourId r)))
       (firstn 10 pageResponses)).
End DestinationPage.

(** ** Tour page (lines 1329-1358) *)

Module AvgScores.
Record t := mk {
  overall : number;
  qp : number;
  accommodation : number;
  logistics : number;
  coordinatorCourtesy : number }.
End AvgScores.

Module TagComment.
Record t := mk { comment : string; severity : Severity; snippet : option string }.
End TagComment.

(** [a || b] on strings: the empty string is the falsy one. *)
Definition orElse (a b : string) : string :=
  if String.eqb a "" then b else a.

Section TourPage.
Variable db : Dataset.
Variable selectedTourId : string.

Definition tourResponses : list SurveyResponse.t :=
  filter (fun r => String.eqb (SurveyResponse.tourId r) selectedTourId)
    (surveyResponses db).

(** [tourResponses.reduce((sum, r) => sum + r.scores.f, 0) /
    tourResponses.length] *)
Definition avgScore (f : Scores.t -> Q) : number :=
  divByLength
    (fold_left (fun sum r => sum + f (SurveyResponse.scores r)) tourResponses 0)
    (List.length tourResponses).

Definition avgScores : AvgScores.t :=
  AvgScores.mk (avgScore Scores.overall) (avgScore Scores.qp)
    (avgScore Scores.accommodation) (avgScore Scores.logistics)
    (avgScore Scores.coordinatorCourtesy).

(** [if (!commentsByTag[tag]) commentsByTag[tag] = [];
    commentsByTag[tag].push({...})] *)
Definition pushComment (c : TagComment.t)
    (m : list (string * list TagComment.t)) (tag : string)
  : list (string * list TagComment.t) :=
  upd tag
    (fun old => (match old with Some l => l | None => [] end) ++ [c]) m.

Definition commentsByTag : list (string * list TagComment.t) :=
  fold_left
    (fun commentsByTag r =>
       match findAnnotation db r with
       | Some ann =>
           fold_left
             (pushComment
                (TagComment.mk
                   (orElse (Comments.general (SurveyResponse.comments r))
                      (orElse
                         (Comments.accommodationBad (SurveyResponse.comments r))
                         (Comments.logistics (SurveyResponse.comments r))))
                   (Annotation.severity ann)
                   (hd_error (Annotation.evidenceSnippets ann))))
             (allTags ann) commentsByTag
       | None => commentsByTag
       end)
    tourResponses [].
End TourPage.

(** ** Opening the details of an action (lines 1067-1075, 1663-1668, 1786) *)

(** The click on a row of the impact page. *)
Definition onClickCorrectiveAction (suggestedActions : list SuggestedAction.t)
    (action : CorrectiveAction.t) (st : AppState) : AppState :=
  let relatedSuggested :=
    match CorrectiveAction.suggestedActionId action with
    | Some sid =>
        find (fun sa => String.eqb (SuggestedAction.id sa) sid) suggestedActions
    | None => None
    end in
  match relatedSuggested with
  | Some sa =>
      mkAppState (completedActionsState st) (showCompleteActionModal st)
        (Some (SuggestedAction.id sa)) (currentPage st)
  | None =>
      mkAppState (completedActionsState st) (showCompleteActionModal st)
        (Some (CorrectiveAction.id action)) (currentPage st)
  end.

(** What the details dialog shows. *)
Inductive ActionDetails :=
| NoDetails
| CorrectiveDetails (correctiveAction : CorrectiveAction.t)
| SuggestedDetails (action : SuggestedAction.t)
    (relatedCorrectiveAction : option CorrectiveAction.t).

Definition actionDetails (suggestedActions : list SuggestedAction.t)
    (st : AppState) : ActionDetails :=
  match selectedActionId st with
  | None => NoDetails
  | Some sel =>
      if showCompleteActionModal st then NoDetails
      else
        match find (fun a => String.eqb (SuggestedAction.id a) sel)
                suggestedActions with
        | None =>
            match find (fun ca => String.eqb (CorrectiveAction.id ca) sel)
                    (completedActionsState st) with
            | None => NoDetails
            | Some correctiveAction => CorrectiveDetails correctiveAction
            end
        | Some action =>
            SuggestedDetails action
              (find
                 (fun ca =>
                    match CorrectiveAction.suggestedActionId ca with
                    | Some sid => String.eqb sid (SuggestedAction.id action)
                    | None => false
                    end)
                 (completedActionsState st))
        end
  end.

(** ** Data generation ([generateSurveys], lines 166-223)

    The generator fills two arrays while it draws from [Math.random]; a
    computation takes the arrays and the number of draws made so far and
    returns them updated. *)

Record GenState := mkGenState {
  genResponses : list SurveyResponse.t;
  genAnnotations : list Annotation.t;
  draws : nat }.

Definition Gen (A : Type) : Type := GenState -> A * GenState.

Definition ret {A : Type} (a : A) : Gen A := fun st => (a, st).

Definition bind {A B : Type} (m : Gen A) (k : A -> Gen B) : Gen B :=
  fun st => let (a, st') := m st in k a st'.

Notation "x <- m ;; k" := (bind m (fun x => k))
  (at level 61, m at next level, right associativity).
Notation "m ;; k" := (bind m (fun _ => k))
  (at level 61, right associativity).

(** [Math.floor] *)
Definition floorQ (x : Q) : Q := inject_Z (Qfloor x).

(** [`${i}`] for a loop index. *)
Definition showNat (i : nat) : string := NilEmpty.string_of_uint (Nat.to_uint i).

Section Generator.
Variable rand : nat -> Q.

(** [Math.random()] *)
Definition random : Gen Q :=
  fun st =>
    (rand (draws st),
     mkGenState (genResponses st) (genAnnotations st) (S (draws st))).

(** [responses.push(r)] *)
Definition pushResponse (r : SurveyResponse.t) : Gen unit :=
  fun st =>
    (tt, mkGenState (genResponses st ++ [r]) (genAnnotations st) (draws st)).

(** [annotations.push(a)] *)
Definition pushAnnotation (a : Annotation.t) : Gen unit :=
  fun st =>
    (tt, mkGenState (genResponses st) (genAnnotations st ++ [a]) (draws st)).

(** [Math.random() > 0.3 ? Math.floor(Math.random() * 3) + 7
                         : Math.floor(Math.random() * 3) + 5] *)
Definition genOverall : Gen Q :=
  u <- random ;;
  if Qltb 0.3 u
  then v <- random ;; ret (floorQ (v * 3) + 7)
  else v <- random ;; ret (floorQ (v * 3) + 5).

(** [Math.random() > 0.5 ? a : b] *)
Definition coin (a b : Q) : Gen Q :=
  u <- random ;; ret (if Qltb 0.5 u then a else b).

Definition genScores (overall : Q) : Gen Scores.t :=
  qp <- coin 1 (-1) ;;
  accommodation <- coin 1 (-1) ;;
  logistics <- coin 1 0 ;;
  pre <- random ;;
  courtesy <- coin 1 0 ;;
  leadership <- coin 1 (-1) ;;
  organisation <- coin 1 0 ;;
  ret (Scores.mk overall (overall + qp) (overall + accommodation)
         (overall + logistics) (floorQ (pre * 2) + 8) (overall + courtesy)
         (overall + leadership) (overall + organisation)).

Definition genComments (overall : Q) : Comments.t :=
  Comments.mk
    (if Qltb overall 8 then "Some aspects could be improved"
     else "Great experience overall")
    (if Qltb overall 7 then "Hotel was not as clean as expected" else "")
    (if Qltb overall 7 then "Transportation delays occurred" else "")
    (if Qltb 8 overall then "Coordinator was amazing and very helpful" else "").

(** [if (Math.random() > p) tags.push(tag)] *)
Definition pushIf (p : Q) (tag : string) (tags : list string)
  : Gen (list string) :=
  u <- random ;; ret (if Qltb p u then tags ++ [tag] else tags).

Definition genSeverity (overall : Q) : Severity :=
  if Qltb overall 6 then HIGH else if Qltb overall 7 then MEDIUM else LOW.

Definition genAnnotation (responseId : string) (overall : Q) : Gen unit :=
  productTags <- pushIf 0.5 "poor_accommodation_quality" [] ;;
  productTags <- pushIf 0.6 "cleanliness_hygiene" productTags ;;
  productTags <- pushIf 0.7 "logistics_failures" productTags ;;
  coordinatorTags <- pushIf 0.8 "weak_leadership_decision_making" [] ;;
  c <- random ;;
  pushAnnotation
    (Annotation.mk responseId (Tags.mk productTags coordinatorTags)
       (genSeverity overall) (0.8 + c * 0.2)
       [if Qltb overall 7 then "Accommodation cleanliness below standard"
        else "Minor logistics delays"]).

(** The body of the [for] loop, for the tour and the index [i]. *)
Definition genResponse (tour : Tour.t) (i : nat) : Gen unit :=
  overall <- genOverall ;;
  let responseId :=
    ("r-" ++ Tour.id tour ++ "-" ++ showNat i)%string in
  scores <- genScores overall ;;
  pushResponse
    (SurveyResponse.mk responseId (Tour.id tour) (Tour.startDate tour) scores
       (genComments overall) "weroad.com") ;;
  if Qltb overall 8 then genAnnotation responseId overall else ret tt.

(** [for (let i = from; i < from + count; i++) body(i)] *)
Fixpoint forLoop (count from : nat) (body : nat -> Gen unit) : Gen unit :=
  match count with
  | O => ret tt
  | S count' => body from ;; forLoop count' (S from) body
  end.

(** The callback of [tours.forEach]. *)
Definition genTour (tour : Tour.t) : Gen unit :=
  u <- random ;;
  let numResponses := (Qfloor (u * 5) + 3)%Z in
  forLoop (Z.to_nat numResponses) 0 (genResponse tour).

Fixpoint forEachTour (tours : list Tour.t) : Gen unit :=
  match tours with
  | [] => ret tt
  | tour :: tours' => genTour tour ;; forEachTour tours'
  end.

Definition generateSurveys (tours : list Tour.t)
  : list SurveyResponse.t * list Annotation.t :=
  let st := snd (forEachTour tours (mkGenState [] [] 0)) in
  (genResponses st, genAnnotations st).
End Generator.

(** ** Vocabulary of the data generation *)

(** The scores a generated response may have: an integer overall score
    from 5 to 9, three scores one above or below it, three equal to it or
    one above, and 8 or 9 for the information before departure. *)
Definition generatedScores (s : Scores.t) : Prop :=
  (exists k : Z, (5 <= k <= 9)%Z /\ Scores.overall s == inject_Z k)
  /\ (Scores.qp s == Scores.overall s + 1
      \/ Scores.qp s == Scores.overall s - 1)
  /\ (Scores.accommodation s == Scores.overall s + 1
      \/ Scores.accommodation s == Scores.overall s - 1)
  /\ (Scores.logistics s == Scores.overall s + 1
      \/ Scores.logistics s == Scores.overall s)
  /\ (Scores.preDepartureInfo s == 8 \/ Scores.preDepartureInfo s == 9)
  /\ (Scores.coordinatorCourtesy s == Scores.overall s + 1
      \/ Scores.coordinatorCourtesy s == Scores.overall s)
  /\ (Scores.coordinatorLeadership s == Scores.overall s + 1
      \/ Scores.coordinatorLeadership s == Scores.overall s - 1)
  /\ (Scores.coordinatorOrganisation s == Scores.overall s + 1
      \/ Scores.coordinatorOrganisation s == Scores.overall s).

(** [l] is [full] with some of its elements left out. *)
Inductive subsequence {A : Type} : list A -> list A -> Prop :=
| sub_nil : subsequence [] []
| sub_skip x l full : subsequence l full -> subsequence l (x :: full)
| sub_keep x l full : subsequence l full -> subsequence (x :: l) (x :: full).

(** The annotation a generated response below 8 gets. *)
Definition annotates (a : Annotation.t) (r : SurveyResponse.t) : Prop :=
  Annotation.responseId a = SurveyResponse.id r
  /\ Annotation.severity a = genSeverity (overallOf r)
  /\ subsequence (Tags.productTags (Annotation.tags a))
       ["poor_accommodation_quality"; "cleanliness_hygiene";
        "logistics_failures"]
  /\ subsequence (Tags.coordinatorTags (Annotation.tags a))
       ["weak_leadership_decision_making"]
  /\ 0.8 <= Annotation.confidence a /\ Annotation.confidence a <= 1.

(** [`r-${tour.id}-${i}`] *)
Definition responseIdOf (tour : Tour.t) (i : nat) : string :=
  ("r-" ++ Tour.id tour ++ "-" ++ showNat i)%string.

(** A response as the generator makes it for [tour]. *)
Definition generatedFor (tour : Tour.t) (r : SurveyResponse.t) : Prop :=
  SurveyResponse.tourId r = Tour.id tour
  /\ SurveyResponse.createdAt r = Tour.startDate tour
  /\ generatedScores (SurveyResponse.scores r).

(** The collections at load time (lines 151 and 225): the responses and
    annotations are generated from the tours. *)
Definition generatedDb (rand : nat -> Q) (destinations : list Destination.t)
    (itineraries : list Itinerary.t) (tours : list Tour.t) : Dataset :=
  mkDataset destinations itineraries tours
    (fst (generateSurveys rand tours)) (snd (generateSurveys rand tours)).

(** What a run of the generator adds to the two arrays. *)
Definition extends (st st' : GenState)
    (rs : list SurveyResponse.t) (anns : list Annotation.t) : Prop :=
  genResponses st' = genResponses st ++ rs
  /\ genAnnotations st' = genAnnotations st ++ anns.

(** ** Vocabulary of the statements, continued *)

Definition Priority_eqb (a b : Priority) : bool :=
  match a, b with
  | PrioLOW, PrioLOW | PrioMEDIUM, PrioMEDIUM | PrioHIGH, PrioHIGH
  | PrioCRITICAL, PrioCRITICAL => true
  | _, _ => false
  end.

(** The response has an annotation that carries the tag. *)
Definition carriesTag (db : Dataset) (tag : string) (r : SurveyResponse.t)
  : bool :=
  match findAnnotation db r with
  | Some ann => includes (allTags ann) tag
  | None => false
  end.

(** The actions of one priority, in the order of the list. *)
Definition ofPriority (p : Priority) (l : list SuggestedAction.t)
  : list SuggestedAction.t :=
  filter (fun a => Priority_eqb (SuggestedAction.priority a) p) l.

(** An oracle that cycles through 0, 0.1, ..., 0.9. *)
Definition cycleOracle (n : nat) : Q := inject_Z (Z.of_nat (n mod 10)) / 10.

(** Two tours of the first week. *)
Definition twoTours : list Tour.t :=
  [sampleTour "t-i1-w0" "i1" "2024-11-01" "2024-11-08";
   sampleTour "t-i3-w0" "i3" "2024-11-01" "2024-11-08"].

Local Close Scope Q_scope.

(** * Properties *)

(** ** Dictionaries *)

Section RecordFacts.
Context {V : Type}.
Implicit Types (m : list (string * V)) (f : option V -> V).

Lemma lookup_upd_same k f m : lookup k (upd k f m) = Some (f (lookup k m)).
Proof.
  induction m as [|[k' v] m IH]; simpl.
  - now rewrite String.eqb_refl.
  - destruct (String.eqb k' k) eqn:E; simpl; rewrite E; auto.
Qed.

Lemma lookup_upd_other k k' f m :
  k <> k' -> lookup k (upd k' f m) = lookup k m.
Proof.
  intros Hne. induction m as [|[k0 v] m IH]; simpl.
  - destruct (String.eqb k' k) eqn:E; auto.
    apply String.eqb_eq in E. congruence.
  - destruct (String.eqb k0 k') eqn:E; simpl.
    + apply String.eqb_eq in E. subst k0.
      destruct (String.eqb k' k) eqn:E'; auto.
      apply String.eqb_eq in E'. congruence.
    + now rewrite IH.
Qed.

(** Updating a dictionary changes one value or adds one entry. *)
Lemma upd_shape k f m :
  (exists m1 v m2,
      m = m1 ++ (k, v) :: m2 /\ upd k f m = m1 ++ (k, f (Some v)) :: m2)
  \/ upd k f m = m ++ [(k, f None)].
Proof.
  induction m as [|[k' v] m IH]; simpl.
  - now right.
  - destruct (String.eqb k' k) eqn:E.
    + apply String.eqb_eq in E. subst k'. left. now exists [], v, m.
    + destruct IH as [(m1 & v' & m2 & -> & ->) | ->].
      * left. now exists ((k', v) :: m1), v', m2.
      * now right.
Qed.

Lemma Forall_upd (P : string * V -> Prop) k f m :
  (forall o, (forall v, o = Some v -> P (k, v)) -> P (k, f o)) ->
  Forall P m -> Forall P (upd k f m).
Proof.
  intros Hf. induction 1 as [|[k' v] m Hx Hm IH]; simpl.
  - constructor; [|constructor]. apply Hf. discriminate.
  - destruct (String.eqb k' k) eqn:E.
    + apply String.eqb_eq in E. subst k'. constructor; auto.
      apply Hf. now intros ? [= <-].
    + constructor; auto.
Qed.
End RecordFacts.

(** A dictionary whose values carry a counter [mu] that every update
    increments by one. *)
Section Counting.
Context {V : Type}.
Variable f : option V -> V.
Variable mu : V -> nat.
Hypothesis f_incr : forall o, mu (f o) = measure mu o + 1.

Lemma totalOf_app m1 m2 :
  totalOf mu (m1 ++ m2) = totalOf mu m1 + totalOf mu m2.
Proof. unfold totalOf. now rewrite map_app, list_sum_app. Qed.

Lemma totalOf_upd k m : totalOf mu (upd k f m) = totalOf mu m + 1.
Proof.
  destruct (upd_shape k f m) as [(m1 & v & m2 & -> & ->) | ->];
    rewrite !totalOf_app; unfold totalOf; simpl; rewrite f_incr; simpl; lia.
Qed.

Lemma totalOf_fold tags m :
  totalOf mu (fold_left (fun m t => upd t f m) tags m)
  = totalOf mu m + List.length tags.
Proof.
  revert m. induction tags as [|t tags IH]; intros m; simpl.
  - lia.
  - rewrite IH, totalOf_upd. lia.
Qed.

Lemma measure_fold tag tags m :
  measure mu (lookup tag (fold_left (fun m t => upd t f m) tags m))
  = measure mu (lookup tag m) + count_occ string_dec tags tag.
Proof.
  revert m. induction tags as [|t tags IH]; intros m; simpl.
  - lia.
  - rewrite IH. destruct (string_dec t tag) as [->|Hne].
    + rewrite lookup_upd_same. simpl. rewrite f_incr. lia.
    + rewrite lookup_upd_other by congruence. lia.
Qed.
End Counting.

(** ** The issue counters count tag occurrences *)

Section IssueFacts.
Variable db : Dataset.

Lemma stepCount_measure tag m r :
  countOf tag (countResponse db m r)
  = countOf tag m + count_occ string_dec (responseTags db r) tag.
Proof.
  unfold countResponse, responseTags, countOf.
  destruct (findAnnotation db r) as [ann|]; simpl; [|lia].
  unfold bump. apply measure_fold. now intros [n|].
Qed.

Lemma stepCount_total m r :
  totalOf (fun n => n) (countResponse db m r)
  = totalOf (fun n => n) m + List.length (responseTags db r).
Proof.
  unfold countResponse, responseTags.
  destruct (findAnnotation db r) as [ann|]; simpl; [|lia].
  unfold bump. apply totalOf_fold. now intros [n|].
Qed.

Lemma stepCluster_measure tag m r :
  measure IssueCluster.count (lookup tag (clusterResponse db m r))
  = measure IssueCluster.count (lookup tag m)
    + count_occ string_dec (responseTags db r) tag.
Proof.
  unfold clusterResponse, responseTags.
  destruct (findAnnotation db r) as [ann|]; simpl; [|lia].
  unfold recordIssue. apply measure_fold. now intros [e|].
Qed.

Lemma issuesCountOf_measure tag rs m :
  countOf tag (fold_left (countResponse db) rs m)
  = countOf tag m
    + list_sum (map (fun r => count_occ string_dec (responseTags db r) tag) rs).
Proof.
  revert m. induction rs as [|r rs IH]; intros m; simpl.
  - lia.
  - rewrite IH, stepCount_measure. lia.
Qed.

Lemma issuesCountOf_total rs m :
  totalOf (fun n => n) (fold_left (countResponse db) rs m)
  = totalOf (fun n => n) m
    + list_sum (map (fun r => List.length (responseTags db r)) rs).
Proof.
  revert m. induction rs as [|r rs IH]; intros m; simpl.
  - lia.
  - rewrite IH, stepCount_total. lia.
Qed.

Lemma destIssuesOf_measure tag rs m :
  measure IssueCluster.count (lookup tag (fold_left (clusterResponse db) rs m))
  = measure IssueCluster.count (lookup tag m)
    + list_sum (map (fun r => count_occ string_dec (responseTags db r) tag) rs).
Proof.
  revert m. induction rs as [|r rs IH]; intros m; simpl.
  - lia.
  - rewrite IH, stepCluster_measure. lia.
Qed.

Lemma recordIssue_balanced sev tags m :
  Forall balanced m -> Forall balanced (fold_left (recordIssue sev) tags m).
Proof.
  revert m. induction tags as [|t tags IH]; intros m Hm; simpl; auto.
  apply IH. unfold recordIssue. apply Forall_upd; auto.
  intros o Ho. unfold balanced in *. simpl.
  assert (Hb : balanced (t, match o with Some e => e | None => IssueCluster.zero end)).
  { destruct o as [e|]; [now apply Ho | reflexivity]. }
  unfold balanced in Hb. simpl in Hb.
  destruct sev; simpl; lia.
Qed.

Lemma stepCluster_balanced rs m :
  Forall balanced m -> Forall balanced (fold_left (clusterResponse db) rs m).
Proof.
  revert m. induction rs as [|r rs IH]; intros m Hm; simpl; auto.
  apply IH. unfold clusterResponse.
  destruct (findAnnotation db r); auto using recordIssue_balanced.
Qed.
End IssueFacts.

(** ** Sorting *)

Section SortFacts.
Context {A : Type}.
Variable pos : A -> A -> bool.

Lemma js_insert_perm x l : Permutation (x :: l) (js_insert pos x l).
Proof.
  induction l as [|y l IH]; simpl; auto.
  destruct (pos x y); auto.
  rewrite perm_swap. now constructor.
Qed.

Lemma js_sort_perm l : Permutation l (js_sort pos l).
Proof.
  induction l as [|x l IH]; simpl; auto.
  rewrite <- js_insert_perm. now constructor.
Qed.

(** Stability: elements that the comparator does not order keep their
    relative order. *)
Lemma js_insert_filter (p : A -> bool) x l :
  (forall y, p x = true -> p y = true -> pos x y = false) ->
  filter p (js_insert pos x l) = filter p (x :: l).
Proof.
  intros Hp. induction l as [|y l IH]; simpl; auto.
  destruct (pos x y) eqn:E; simpl; auto.
  rewrite IH. simpl.
  destruct (p x) eqn:Ex, (p y) eqn:Ey; auto.
  rewrite Hp in E by auto. discriminate.
Qed.

Lemma js_sort_filter (p : A -> bool) l :
  (forall x y, p x = true -> p y = true -> pos x y = false) ->
  filter p (js_sort pos l) = filter p l.
Proof.
  intros Hp. induction l as [|x l IH]; simpl; auto.
  rewrite js_insert_filter by auto. simpl. now rewrite IH.
Qed.

Variable le : A -> A -> Prop.
Hypothesis le_trans : forall x y z, le x y -> le y z -> le x z.
Hypothesis pos_false : forall x y, pos x y = false -> le x y.
Hypothesis pos_true : forall x y, pos x y = true -> le y x.

Lemma js_insert_sorted x l :
  StronglySorted le l -> StronglySorted le (js_insert pos x l).
Proof.
  induction 1 as [|y l Hl IH Hy]; simpl.
  - repeat constructor.
  - destruct (pos x y) eqn:E.
    + constructor; auto.
      eapply Permutation_Forall; [apply js_insert_perm|].
      constructor; auto.
    + constructor; [now constructor|].
      constructor; [auto|].
      eapply Forall_impl; [|exact Hy]. eauto.
Qed.

Lemma js_sort_sorted l : StronglySorted le (js_sort pos l).
Proof.
  induction l; simpl; [constructor | now apply js_insert_sorted].
Qed.
End SortFacts.

Lemma hd_error_In {A : Type} (l : list A) (x : A) :
  hd_error l = Some x -> In x l.
Proof. destruct l; simpl; [discriminate|]. intros [= ->]. now left. Qed.

Lemma find_hd_filter {A : Type} (p : A -> bool) (l : list A) :
  find p l = hd_error (filter p l).
Proof.
  induction l as [|x l IH]; simpl; auto. now destruct (p x).
Qed.

Section RankFacts.
Context {A : Type}.
Variable key : A -> nat.

Lemma rank_stableDescending entries :
  stableDescending key entries (js_sort (descending key) entries).
Proof.
  assert (Hsorted : StronglySorted (fun a b => key b <= key a)
                      (js_sort (descending key) entries)).
  { apply js_sort_sorted; unfold descending.
    - intros; lia.
    - intros x y H. apply Z.ltb_ge in H. lia.
    - intros x y H. apply Z.ltb_lt in H. lia. }
  assert (Hperm := js_sort_perm (descending key) entries).
  assert (Hstable : forall c,
             filter (fun e => (key e =? c)%nat) (js_sort (descending key) entries)
             = filter (fun e => (key e =? c)%nat) entries).
  { intros c. apply js_sort_filter. intros x y Hx Hy.
    apply Nat.eqb_eq in Hx, Hy. unfold descending. apply Z.ltb_ge. lia. }
  repeat split; auto.
  destruct (js_sort (descending key) entries) as [|e0 rest] eqn:E.
  - apply Permutation_sym, Permutation_nil in Hperm. now subst.
  - simpl. rewrite find_hd_filter.
    assert (Hmax : list_max (map key entries) = key e0).
    { apply Nat.le_antisymm.
      - apply list_max_le, Forall_map.
        eapply Permutation_Forall; [apply Permutation_sym, Hperm|].
        constructor; auto. now inversion Hsorted.
      - assert (Hall : Forall (fun k => k <= list_max (map key entries))
                         (map key entries)) by now apply list_max_le.
        rewrite Forall_map, Forall_forall in Hall. apply Hall.
        eapply Permutation_in; [apply Permutation_sym, Hperm|]. now left. }
    rewrite Hmax, <- Hstable. simpl. now rewrite Nat.eqb_refl.
Qed.
End RankFacts.

(** ** The order of the dictionary keys *)

Lemma includes_seen seen tag : includes seen tag = true <-> In tag seen.
Proof.
  unfold includes. rewrite existsb_exists. split.
  - intros (y & Hin & E). apply String.eqb_eq in E. now subst.
  - intros Hin. exists tag. split; auto. apply String.eqb_refl.
Qed.

Lemma noteTag_In seen tag x :
  In x (noteTag seen tag) <-> In x seen \/ x = tag.
Proof.
  unfold noteTag. destruct (includes seen tag) eqn:E.
  - apply includes_seen in E. split; [now left|].
    intros [H | ->]; auto.
  - rewrite in_app_iff. simpl. intuition.
Qed.

Lemma firstSeen_In tags seen x :
  In x (fold_left noteTag tags seen) <-> In x seen \/ In x tags.
Proof.
  revert seen. induction tags as [|t tags IH]; intros seen; simpl.
  - intuition.
  - rewrite IH, noteTag_In. intuition.
Qed.

Lemma firstSeen_NoDup tags seen :
  NoDup seen -> NoDup (fold_left noteTag tags seen).
Proof.
  revert seen. induction tags as [|t tags IH]; intros seen Hnd; simpl; auto.
  apply IH. unfold noteTag. destruct (includes seen t) eqn:E; auto.
  apply NoDup_app; auto.
  - repeat constructor. simpl. tauto.
  - intros x Hx [<-|[]].
    apply includes_seen in Hx. congruence.
Qed.

Lemma find_append {A : Type} (p : A -> bool) (l1 l2 : list A) :
  find p (l1 ++ l2)
  = match find p l1 with Some y => Some y | None => find p l2 end.
Proof.
  induction l1 as [|x l1 IH]; simpl; auto. now destruct (p x).
Qed.

Lemma find_none_iff {A : Type} (p : A -> bool) (l : list A) :
  find p l = None <-> forall x, In x l -> p x = false.
Proof.
  induction l as [|y l IH]; simpl.
  - intuition.
  - destruct (p y) eqn:E.
    + split; [discriminate|]. intros H. specialize (H y (or_introl eq_refl)).
      congruence.
    + rewrite IH. split.
      * intros H x [<-|Hx]; auto.
      * intros H x Hx. auto.
Qed.

(** The scan keeps what it has found: an element that is first with a
    property among the tags seen so far stays first. *)
Lemma find_kept (p : string -> bool) tags seen y :
  find p seen = Some y -> find p (fold_left noteTag tags seen) = Some y.
Proof.
  revert seen. induction tags as [|t tags IH]; intros seen Hy; simpl; auto.
  apply IH. unfold noteTag. destruct (includes seen t); auto.
  now rewrite find_append, Hy.
Qed.

(** The first tag with a property is the same among the distinct tags in
    the order they were first met as in the scan itself. *)
Lemma find_firstSeen (p : string -> bool) tags seen :
  (forall x, In x seen -> p x = false) ->
  find p (fold_left noteTag tags seen) = find p tags.
Proof.
  revert seen. induction tags as [|t tags IH]; intros seen Hseen; simpl.
  - now apply find_none_iff.
  - unfold noteTag. destruct (includes seen t) eqn:E.
    + apply includes_seen in E. rewrite (Hseen t E). now apply IH.
    + destruct (p t) eqn:Ep.
      * apply find_kept. rewrite find_append.
        apply find_none_iff in Hseen. rewrite Hseen. simpl. now rewrite Ep.
      * apply IH. intros x Hx. apply in_app_iff in Hx.
        destruct Hx as [Hx | [<-|[]]]; auto.
Qed.

Section KeyFacts.
Context {V : Type}.
Implicit Types (m : list (string * V)) (f : option V -> V).

(** An update leaves the keys in place and puts a new key last. *)
Lemma keys_upd k f m : map fst (upd k f m) = noteTag (map fst m) k.
Proof.
  unfold noteTag, includes.
  induction m as [|[k' v] m IH]; simpl; auto.
  rewrite (String.eqb_sym k k').
  destruct (String.eqb k' k); simpl; auto.
  rewrite IH. now destruct (existsb (String.eqb k) (map fst m)).
Qed.

Lemma keys_fold f tags m :
  map fst (fold_left (fun m t => upd t f m) tags m)
  = fold_left noteTag tags (map fst m).
Proof.
  revert m. induction tags as [|t tags IH]; intros m; simpl; auto.
  now rewrite IH, keys_upd.
Qed.

Lemma lookup_entry m e :
  NoDup (map fst m) -> In e m -> lookup (fst e) m = Some (snd e).
Proof.
  induction m as [|[k v] m IH]; simpl; [tauto|].
  intros Hnd [<-|Hin]; simpl.
  - now rewrite String.eqb_refl.
  - inversion Hnd as [|? ? Hk Hnd']; subst.
    destruct (String.eqb k (fst e)) eqn:E; auto.
    apply String.eqb_eq in E. subst k. exfalso. apply Hk.
    now apply in_map.
Qed.
End KeyFacts.

Section ScanFacts.
Variable db : Dataset.

Lemma keys_countResponse m r :
  map fst (countResponse db m r)
  = fold_left noteTag (responseTags db r) (map fst m).
Proof.
  unfold countResponse, responseTags.
  destruct (findAnnotation db r) as [ann|]; simpl; auto.
  unfold bump. apply keys_fold.
Qed.

Lemma keys_clusterResponse m r :
  map fst (clusterResponse db m r)
  = fold_left noteTag (responseTags db r) (map fst m).
Proof.
  unfold clusterResponse, responseTags.
  destruct (findAnnotation db r) as [ann|]; simpl; auto.
  unfold recordIssue. apply keys_fold.
Qed.

Lemma keys_issuesCountOf rs m :
  map fst (fold_left (countResponse db) rs m)
  = fold_left noteTag (scannedTags db rs) (map fst m).
Proof.
  unfold scannedTags. revert m.
  induction rs as [|r rs IH]; intros m; simpl; auto.
  now rewrite fold_left_app, IH, keys_countResponse.
Qed.

Lemma keys_destIssuesOf rs m :
  map fst (fold_left (clusterResponse db) rs m)
  = fold_left noteTag (scannedTags db rs) (map fst m).
Proof.
  unfold scannedTags. revert m.
  induction rs as [|r rs IH]; intros m; simpl; auto.
  now rewrite fold_left_app, IH, keys_clusterResponse.
Qed.

Lemma occurrences_scan rs tag :
  list_sum (map (fun r => count_occ string_dec (responseTags db r) tag) rs)
  = occurrences (scannedTags db rs) tag.
Proof.
  unfold occurrences, scannedTags.
  induction rs as [|r rs IH]; simpl; auto.
  now rewrite count_occ_app, IH.
Qed.
End ScanFacts.

Lemma list_max_incl {A : Type} (f : A -> nat) (l1 l2 : list A) :
  incl l1 l2 -> list_max (map f l1) <= list_max (map f l2).
Proof.
  intros Hincl. apply list_max_le, Forall_map, Forall_forall.
  intros x Hx.
  assert (Hall : Forall (fun k => k <= list_max (map f l2)) (map f l2))
    by now apply list_max_le.
  rewrite Forall_map, Forall_forall in Hall. auto.
Qed.

Lemma find_agree {A : Type} (p q : A -> bool) (l : list A) :
  (forall x, In x l -> p x = q x) -> find p l = find q l.
Proof.
  induction l as [|x l IH]; simpl; auto. intros H.
  rewrite (H x) by now left. destruct (q x); auto.
Qed.

Lemma find_on_keys {V B : Type} (q : string -> bool)
    (h : string * V -> B) (g : string -> B) (m : list (string * V)) :
  (forall e, In e m -> h e = g (fst e)) ->
  option_map h (find (fun e => q (fst e)) m)
  = option_map g (find q (map fst m)).
Proof.
  induction m as [|e m IH]; simpl; auto. intros H.
  destruct (q (fst e)); simpl.
  - f_equal. apply H. now left.
  - apply IH. auto.
Qed.

(** A dictionary whose keys are the distinct tags of a scan in the order
    they were first met, and whose counters are the numbers of
    occurrences. *)
Section TallyFacts.
Context {V : Type}.
Variable mu : V -> nat.
Variable m : list (string * V).
Variable tags : list string.
Hypothesis keys_m : map fst m = firstSeen tags.
Hypothesis counts_m :
  forall tag, measure mu (lookup tag m) = occurrences tags tag.

Lemma tally_counter e : In e m -> mu (snd e) = occurrences tags (fst e).
Proof using keys_m counts_m.
  intros He. rewrite <- counts_m, (lookup_entry m e); auto.
  rewrite keys_m. apply firstSeen_NoDup. constructor.
Qed.

Lemma tally_entries : map (fun e => (fst e, mu (snd e))) m = tally tags.
Proof using keys_m counts_m.
  unfold tally. rewrite <- keys_m, map_map. apply map_ext_in.
  intros e He. now rewrite tally_counter.
Qed.

Lemma tally_top :
  option_map (fun e => (fst e, mu (snd e)))
    (hd_error (js_sort (descending (fun e => mu (snd e))) m))
  = firstMostFrequent tags.
Proof using keys_m counts_m.
  destruct (rank_stableDescending (fun e => mu (snd e)) m)
    as (_ & _ & _ & ->).
  assert (Hmax : list_max (map (fun e => mu (snd e)) m)
                 = list_max (map (occurrences tags) tags)).
  { transitivity (list_max (map (occurrences tags) (firstSeen tags))).
    - f_equal. rewrite <- keys_m, map_map. apply map_ext_in.
      intros e He. now apply tally_counter.
    - unfold firstSeen.
      apply Nat.le_antisymm; apply list_max_incl; intros x Hx.
      + apply firstSeen_In in Hx. now destruct Hx as [[]|Hx].
      + apply firstSeen_In. now right. }
  rewrite Hmax.
  rewrite (find_agree _
             (fun e => (occurrences tags (fst e)
                        =? list_max (map (occurrences tags) tags))%nat)).
  - rewrite (find_on_keys
               (fun tag => (occurrences tags tag
                            =? list_max (map (occurrences tags) tags))%nat)
               _ (fun tag => (tag, occurrences tags tag))).
    + rewrite keys_m. unfold firstSeen, firstMostFrequent.
      rewrite find_firstSeen; auto. intros x [].
    + intros e He. now rewrite tally_counter.
  - intros e He. now rewrite tally_counter.
Qed.
End TallyFacts.

Lemma map_pair_eta {A B : Type} (l : list (A * B)) :
  map (fun e => (fst e, snd e)) l = l.
Proof.
  induction l as [|[a b] l IH]; simpl; auto. now rewrite IH.
Qed.

(** ** Issue aggregation *)

(** C2, as the code has it: the counter of a tag is the number of times
    the tag occurs in [productTags] followed by [coordinatorTags], summed
    over the responses; nothing is deduplicated. A response whose
    concatenated tag list has no repetition contributes at most one. The
    [count] field of the per-destination clusters obeys the same
    equation. *)
Theorem issue_count_is_occurrences
    (db : Dataset) (rs : list SurveyResponse.t) (tag : string) :
  countOf tag (issuesCountOf db rs)
  = list_sum (map (fun r => count_occ string_dec (responseTags db r) tag) rs)
  /\ measure IssueCluster.count (lookup tag (destIssuesOf db rs))
     = list_sum (map (fun r => count_occ string_dec (responseTags db r) tag) rs)
  /\ (forall r, NoDup (responseTags db r) ->
        count_occ string_dec (responseTags db r) tag <= 1).
Proof.
  split; [|split].
  - unfold issuesCountOf. now rewrite issuesCountOf_measure.
  - unfold destIssuesOf. now rewrite destIssuesOf_measure.
  - intros r Hnd. now apply NoDup_count_occ.
Qed.

Lemma issue_count_is_occurrences_witness :
  count_occ string_dec
    (responseTags
       (oneResponseDb ["poor_accommodation_quality"; "cleanliness_hygiene"]
          ["weak_leadership_decision_making"])
       (sampleResponse "r-t-i1-w0-0" "t-i1-w0" "2024-11-01" 7%Q))
    "cleanliness_hygiene" <= 1.
Proof.
  apply (issue_count_is_occurrences
           (oneResponseDb ["poor_accommodation_quality"; "cleanliness_hygiene"]
              ["weak_leadership_decision_making"])
           [] "cleanliness_hygiene").
  vm_compute. repeat constructor; simpl; intuition discriminate.
Defined.

(** C2 fails as stated: a tag that sits in both lists of the one
    annotation of the one response is counted twice. *)
Lemma issue_count_not_deduplicated :
  let db := oneResponseDb ["logistics_failures"] ["logistics_failures"] in
  List.length (filteredData db defaultFilters) = 1
  /\ issuesCount db defaultFilters = [("logistics_failures", 2)]
  /\ countOf "logistics_failures" (issuesCount db defaultFilters) <> 1.
Proof. vm_compute. repeat split. discriminate. Qed.

(** C4, as the code has it: the counters add up to the number of tag
    occurrences over the annotated responses. They reach the number of
    annotated responses when each of these carries a tag, and equal it
    when each carries exactly one. *)
Theorem issue_total_is_tag_occurrences
    (db : Dataset) (rs : list SurveyResponse.t) :
  totalOf (fun n => n) (issuesCountOf db rs)
  = list_sum (map (fun r => List.length (responseTags db r)) rs)
  /\ ((forall r, In r rs -> isAnnotated db r = true ->
         1 <= List.length (responseTags db r)) ->
      annotatedCount db rs <= totalOf (fun n => n) (issuesCountOf db rs))
  /\ ((forall r, In r rs -> isAnnotated db r = true ->
         List.length (responseTags db r) = 1) ->
      totalOf (fun n => n) (issuesCountOf db rs) = annotatedCount db rs).
Proof.
  assert (Htotal : totalOf (fun n => n) (issuesCountOf db rs)
                   = list_sum (map (fun r => List.length (responseTags db r)) rs)).
  { unfold issuesCountOf. now rewrite issuesCountOf_total. }
  rewrite Htotal. clear Htotal. split; [reflexivity|].
  assert (Hnone : forall r, isAnnotated db r = false ->
                            List.length (responseTags db r) = 0).
  { intros r. unfold isAnnotated, responseTags.
    now destruct (findAnnotation db r). }
  unfold annotatedCount.
  split; intros H; induction rs as [|r rs' IH]; simpl; auto.
  - assert (IH' := IH (fun r' Hin => H r' (or_intror Hin))).
    destruct (isAnnotated db r) eqn:E; simpl.
    + specialize (H r (or_introl eq_refl) E). lia.
    + lia.
  - assert (IH' := IH (fun r' Hin => H r' (or_intror Hin))).
    destruct (isAnnotated db r) eqn:E; simpl.
    + specialize (H r (or_introl eq_refl) E). lia.
    + rewrite Hnone by auto. lia.
Qed.

Lemma issue_total_is_tag_occurrences_witness :
  let db := oneResponseDb ["poor_accommodation_quality"] [] in
  totalOf (fun n => n) (issuesCountOf db (filteredData db defaultFilters))
  = annotatedCount db (filteredData db defaultFilters).
Proof.
  apply (issue_total_is_tag_occurrences
           (oneResponseDb ["poor_accommodation_quality"] [])).
  intros r Hin _. vm_compute in Hin. destruct Hin as [<-|[]]. reflexivity.
Defined.

(** C4 fails as stated: an annotation may carry no tag at all (all four
    draws of [generateSurveys] can miss), and then the annotated response
    adds nothing to any counter. *)
Lemma issue_total_below_annotated :
  let db := oneResponseDb [] [] in
  annotatedCount db (filteredData db defaultFilters) = 1
  /\ totalOf (fun n => n) (issuesCount db defaultFilters) = 0
  /\ ~ (annotatedCount db (filteredData db defaultFilters)
        <= totalOf (fun n => n) (issuesCount db defaultFilters)).
Proof. vm_compute. repeat split. lia. Qed.

(** C3, as the code has it: the dictionary lists the tags in the order in
    which the scan first met them, each with the number of its
    occurrences; the ranking is by count descending and tags of equal
    count stay in that order, so the top issue is the tag met first among
    those that occur most often. The same holds of the clusters of a
    destination and of the top issue of its row. The tags are assumed to
    be ordinary property names. *)
Theorem ranking_is_stable_descending
    (db : Dataset) (flt : Filters) (rs : list SurveyResponse.t)
    (dest : Destination.t) (u : Q) :
  plainTags db ->
  (issuesCountOf db rs = tally (scannedTags db rs)
   /\ stableDescending snd (issuesCountOf db rs)
        (rankIssues (issuesCountOf db rs))
   /\ hd_error (rankIssues (issuesCountOf db rs))
      = firstMostFrequent (scannedTags db rs))
  /\ (map (fun e => (fst e, IssueCluster.count (snd e))) (destIssuesOf db rs)
      = tally (scannedTags db rs)
      /\ stableDescending (fun e => IssueCluster.count (snd e))
           (destIssuesOf db rs) (rankClusters (destIssuesOf db rs))
      /\ option_map (fun e => (fst e, IssueCluster.count (snd e)))
           (hd_error (rankClusters (destIssuesOf db rs)))
         = firstMostFrequent (scannedTags db rs))
  /\ topIssue db flt = firstMostFrequent (scannedTags db (filteredData db flt))
  /\ option_map (fun top => (TopIssue.tag top, TopIssue.count top))
       (DestStat.topIssue (destStat db flt dest u))
     = firstMostFrequent (scannedTags db (destResponses db flt dest)).
Proof.
  intros _.
  assert (Hcount : forall rs',
             map fst (issuesCountOf db rs') = firstSeen (scannedTags db rs')
             /\ forall tag,
                 measure (fun n => n) (lookup tag (issuesCountOf db rs'))
                 = occurrences (scannedTags db rs') tag).
  { intros rs'. unfold issuesCountOf. split.
    - now rewrite keys_issuesCountOf.
    - intros tag. rewrite <- occurrences_scan.
      apply (issuesCountOf_measure db tag rs' []). }
  assert (Hcluster : forall rs',
             map fst (destIssuesOf db rs') = firstSeen (scannedTags db rs')
             /\ forall tag,
                 measure IssueCluster.count (lookup tag (destIssuesOf db rs'))
                 = occurrences (scannedTags db rs') tag).
  { intros rs'. unfold destIssuesOf. split.
    - now rewrite keys_destIssuesOf.
    - intros tag. rewrite <- occurrences_scan.
      apply (destIssuesOf_measure db tag rs' []). }
  assert (Htop : forall rs',
             hd_error (rankIssues (issuesCountOf db rs'))
             = firstMostFrequent (scannedTags db rs')).
  { intros rs'. destruct (Hcount rs') as [Hk Hc].
    rewrite <- (tally_top (fun n => n) _ _ Hk Hc). unfold rankIssues.
    now destruct (hd_error _) as [[tag n]|]. }
  assert (Htop' : forall rs',
             option_map (fun e => (fst e, IssueCluster.count (snd e)))
               (hd_error (rankClusters (destIssuesOf db rs')))
             = firstMostFrequent (scannedTags db rs')).
  { intros rs'. destruct (Hcluster rs') as [Hk Hc].
    now rewrite <- (tally_top IssueCluster.count _ _ Hk Hc). }
  repeat split.
  - destruct (Hcount rs) as [Hk Hc].
    rewrite <- (tally_entries (fun n => n) _ _ Hk Hc).
    symmetry. apply map_pair_eta.
  - apply rank_stableDescending.
  - apply rank_stableDescending.
  - apply rank_stableDescending.
  - apply (rank_stableDescending snd).
  - apply Htop.
  - destruct (Hcluster rs) as [Hk Hc].
    apply (tally_entries IssueCluster.count _ _ Hk Hc).
  - apply (rank_stableDescending (fun e => IssueCluster.count (snd e))).
  - apply (rank_stableDescending (fun e => IssueCluster.count (snd e))).
  - apply (rank_stableDescending (fun e => IssueCluster.count (snd e))).
  - apply (rank_stableDescending (fun e => IssueCluster.count (snd e))).
  - apply Htop'.
  - apply Htop.
  - rewrite <- Htop'. unfold destStat. simpl.
    now destruct (hd_error _).
Qed.

Lemma ranking_is_stable_descending_witness :
  let db :=
    oneResponseDb ["poor_accommodation_quality"; "cleanliness_hygiene"]
      ["weak_leadership_decision_making"] in
  plainTags db
  /\ topIssue db defaultFilters
     = firstMostFrequent (scannedTags db (filteredData db defaultFilters)).
Proof.
  assert (H : plainTags
                (oneResponseDb
                   ["poor_accommodation_quality"; "cleanliness_hygiene"]
                   ["weak_leadership_decision_making"])).
  { repeat constructor; simpl; intuition discriminate. }
  split; [exact H|].
  apply (ranking_is_stable_descending _ defaultFilters [] bali 0%Q H).
Defined.

(** C3 fails as stated: two tags pushed in the order of [generateSurveys]
    tie at one occurrence, and the top issue is the one met first, not the
    one whose name is smaller. *)
Lemma top_issue_not_by_name :
  let db := oneResponseDb ["poor_accommodation_quality"; "cleanliness_hygiene"] [] in
  issuesCount db defaultFilters
  = [("poor_accommodation_quality", 1); ("cleanliness_hygiene", 1)]
  /\ topIssue db defaultFilters = Some ("poor_accommodation_quality", 1)
  /\ String.ltb "cleanliness_hygiene" "poor_accommodation_quality" = true.
Proof. vm_compute. repeat split. Qed.

(** C8: in the clusters built from any list of responses, the three
    severity buckets of a tag add up to the count of the tag; the top
    issue a destination row shows inherits this. *)
Theorem severity_buckets_sum_to_count
    (db : Dataset) (flt : Filters) (rs : list SurveyResponse.t)
    (dest : Destination.t) (u : Q) :
  Forall balanced (destIssuesOf db rs)
  /\ match DestStat.topIssue (destStat db flt dest u) with
     | Some top =>
         SeverityCount.LOW (TopIssue.severity top)
         + SeverityCount.MEDIUM (TopIssue.severity top)
         + SeverityCount.HIGH (TopIssue.severity top)
         = TopIssue.count top
     | None => True
     end.
Proof.
  assert (Hall : forall rs', Forall balanced (destIssuesOf db rs')).
  { intros rs'. unfold destIssuesOf. apply stepCluster_balanced. constructor. }
  split; [apply Hall|].
  unfold destStat. simpl.
  destruct (hd_error _) as [e|] eqn:E; [|exact I]. simpl.
  specialize (Hall (destResponses db flt dest)).
  rewrite Forall_forall in Hall. apply (Hall e).
  apply hd_error_In in E. unfold rankClusters in E.
  eapply Permutation_in; [apply Permutation_sym, js_sort_perm | exact E].
Qed.

(** ** Numbers *)

Lemma Qltb_lt x y : Qltb x y = true <-> (x < y)%Q.
Proof.
  unfold Qltb. rewrite negb_true_iff. split; intros H.
  - apply Qnot_le_lt. intros Hle. apply Qle_bool_iff in Hle. congruence.
  - destruct (Qle_bool y x) eqn:E; auto.
    apply Qle_bool_iff in E. exfalso. now apply (Qlt_not_le x y).
Qed.

Lemma Qltb_ge x y : Qltb x y = false <-> (y <= x)%Q.
Proof.
  unfold Qltb. rewrite negb_false_iff. apply Qle_bool_iff.
Qed.

Lemma fold_left_Qsum {A : Type} (f : A -> Q) (l : list A) (a : Q) :
  (fold_left (fun sum x => sum + f x) l a == a + Qsum (map f l))%Q.
Proof.
  revert a. induction l as [|x l IH]; intros a; simpl.
  - ring.
  - rewrite IH. ring.
Qed.

Lemma ofNat_pos n : 0 < n -> (0 < ofNat n)%Q.
Proof.
  intros H. unfold ofNat. change 0%Q with (inject_Z 0).
  rewrite <- Zlt_Qlt. lia.
Qed.

(** ** Per-destination statistics *)

Section DestFacts.
Variable db : Dataset.
Variable flt : Filters.

Lemma includes_In l x : includes l x = true <-> In x l.
Proof.
  unfold includes. rewrite existsb_exists. split.
  - intros (y & Hin & E). apply String.eqb_eq in E. now subst.
  - intros Hin. exists x. split; auto. apply String.eqb_refl.
Qed.

Lemma destResponses_chain dest r :
  In r (destResponses db flt dest)
  <-> In r (filteredData db flt) /\ mappedTo db r dest.
Proof.
  unfold destResponses, toursOfDestination, mappedTo.
  rewrite filter_In, includes_In, in_map_iff.
  split.
  - intros (Hin & t & Ht & Hf). split; auto.
    apply filter_In in Hf as (Htin & Hinc).
    apply includes_In, in_map_iff in Hinc as (i & Hi & Hfi).
    apply filter_In in Hfi as (Hiin & E). apply String.eqb_eq in E.
    now exists t, i.
  - intros (Hin & t & i & Ht & Hi & E1 & E2 & E3). split; auto.
    exists t. split; auto. apply filter_In. split; auto.
    apply includes_In, in_map_iff. exists i. split; auto.
    apply filter_In. split; auto. now apply String.eqb_eq.
Qed.

Lemma destResponses_id d1 d2 :
  Destination.id d1 = Destination.id d2 ->
  destResponses db flt d1 = destResponses db flt d2.
Proof. unfold destResponses. now intros ->. Qed.

Lemma avgOf_mean rs :
  rs <> [] -> (avgOf rs == mean (map overallOf rs))%Q.
Proof.
  intros Hne. unfold avgOf, mean, sumOverall.
  destruct rs as [|r rs]; [congruence|].
  change (0 <? List.length (r :: rs))%nat with true. cbv iota.
  rewrite length_map.
  rewrite (fold_left_Qsum overallOf). now rewrite Qplus_0_l.
Qed.

Lemma avgOf_pos_nonempty rs : (0 < avgOf rs)%Q -> rs <> [].
Proof. intros H ->. now apply Qlt_irrefl in H. Qed.

Variable rand : nat -> Q.

Lemma In_mapDestinations row ds calls :
  In row (mapDestinations db flt rand ds calls)
  <-> exists n dest,
      nth_error ds n = Some dest
      /\ row = destStat db flt dest (rand (calls + n)).
Proof.
  revert calls. induction ds as [|d ds IH]; intros calls; simpl.
  - split; [tauto|]. intros (n & dest & H & _). now destruct n.
  - rewrite IH. split.
    + intros [<-|(n & dest & Hn & ->)].
      * exists 0, d. now rewrite Nat.add_0_r.
      * exists (S n), dest. now rewrite Nat.add_succ_r.
    + intros (n & dest & Hn & ->). destruct n as [|n]; simpl in Hn.
      * left. injection Hn as ->. now rewrite Nat.add_0_r.
      * right. exists n, dest. now rewrite Nat.add_succ_r.
Qed.

(** A row of the output is the callback's result for one of the
    destinations, with the draw made for it, and has a positive
    average. *)
Lemma In_destStats row :
  In row (destStats db flt rand)
  <-> (exists n dest,
          nth_error (destinations db) n = Some dest
          /\ row = destStat db flt dest (rand n))
      /\ (0 < DestStat.avg row)%Q.
Proof.
  unfold destStats. split.
  - intros H. eapply Permutation_in in H;
      [|apply Permutation_sym, js_sort_perm].
    apply filter_In in H as (H & Hpos).
    apply In_mapDestinations in H. apply Qltb_lt in Hpos. auto.
  - intros (H & Hpos). eapply Permutation_in; [apply js_sort_perm|].
    apply filter_In. split.
    + now apply In_mapDestinations.
    + now apply Qltb_lt.
Qed.

Lemma destStats_sorted :
  StronglySorted (fun a b => (DestStat.delta a <= DestStat.delta b)%Q)
    (destStats db flt rand).
Proof.
  unfold destStats. apply js_sort_sorted.
  - intros x y z. apply Qle_trans.
  - intros x y H. apply Qltb_ge in H. lra.
  - intros x y H. apply Qltb_lt in H. lra.
Qed.
End DestFacts.

Lemma avgOf_zero rs :
  (forall r, In r rs -> (overallOf r == 0)%Q) -> (avgOf rs == 0)%Q.
Proof.
  intros Hz. destruct rs as [|r0 rs0] eqn:E; [reflexivity|]. rewrite <- E in *.
  rewrite avgOf_mean by (subst; discriminate).
  unfold mean. assert (Hs : (Qsum (map overallOf rs) == 0)%Q).
  { clear E. induction rs as [|r rs' IH]; simpl; [reflexivity|].
    rewrite (Hz r) by now left. rewrite IH; [ring|]. intros; apply Hz; now right. }
  rewrite Hs. unfold Qdiv. ring.
Qed.

Lemma filteredData_below8 db flt r :
  onlyBelow8 flt = true -> In r (filteredData db flt) -> isBelow8 r = true.
Proof.
  unfold filteredData. intros ->.
  destruct (negb _); destruct (productLine flt);
    rewrite ?filter_In; intuition.
Qed.

Lemma filter_all_true {A : Type} (p : A -> bool) (l : list A) :
  (forall x, In x l -> p x = true) -> filter p l = l.
Proof.
  induction l as [|x l IH]; intros H; simpl; auto.
  rewrite (H x) by now left. f_equal. apply IH. intros; apply H; now right.
Qed.

(** C7: a destination left with no response by the filters has no row;
    where a destination has responses, [avg] is their mean, the
    responses being those of the filtered data that reach the destination
    through their tour and its itinerary. *)
Theorem destination_without_responses_has_no_row
    (db : Dataset) (flt : Filters) (rand : nat -> Q) (dest : Destination.t) :
  (destResponses db flt dest = [] ->
   forall row, In row (destStats db flt rand) ->
               Destination.id (DestStat.dest row) <> Destination.id dest)
  /\ (forall u, destResponses db flt dest <> [] ->
        (DestStat.avg (destStat db flt dest u)
         == mean (map overallOf (destResponses db flt dest)))%Q)
  /\ (forall row, In row (destStats db flt rand) ->
        destResponses db flt (DestStat.dest row) <> []
        /\ (DestStat.avg row
            == mean (map overallOf (destResponses db flt (DestStat.dest row))))%Q)
  /\ (forall r, In r (destResponses db flt dest)
                <-> In r (filteredData db flt) /\ mappedTo db r dest).
Proof.
  split; [|split; [|split]].
  - intros Hnone row Hrow Hid.
    apply In_destStats in Hrow as ((n & d & _ & ->) & Hpos).
    simpl in Hid, Hpos.
    rewrite (destResponses_id db flt d dest Hid), Hnone in Hpos.
    now apply Qlt_irrefl in Hpos.
  - intros u Hne. simpl. now apply avgOf_mean.
  - intros row Hrow.
    apply In_destStats in Hrow as ((n & d & _ & ->) & Hpos). simpl in *.
    apply avgOf_pos_nonempty in Hpos as Hne. split; auto.
    now apply avgOf_mean.
  - apply destResponses_chain.
Qed.

Lemma destination_without_responses_has_no_row_witness :
  destResponses trendDb defaultFilters jordan = []
  /\ Forall (fun row => Destination.id (DestStat.dest row) <> "d3")
       (destStats trendDb defaultFilters halfOracle).
Proof.
  split; [reflexivity|]. apply Forall_forall.
  apply (destination_without_responses_has_no_row
           trendDb defaultFilters halfOracle jordan).
  reflexivity.
Defined.

(** C9: with the below-8 filter on, every destination that keeps a
    response has [below8] equal to 100. *)
Theorem below8_is_100_under_filter
    (db : Dataset) (flt : Filters) (dest : Destination.t) (u : Q) :
  onlyBelow8 flt = true ->
  destResponses db flt dest <> [] ->
  (DestStat.below8 (destStat db flt dest u) == 100)%Q.
Proof.
  intros Hon Hne. simpl. unfold below8Of.
  rewrite filter_all_true.
  - destruct (destResponses db flt dest) as [|r rs]; [congruence|].
    change (0 <? List.length (r :: rs))%nat with true. cbv iota.
    assert (Hpos : (0 < ofNat (List.length (r :: rs)))%Q)
      by (apply ofNat_pos; simpl; lia).
    field. intros H. rewrite H in Hpos. now apply Qlt_irrefl in Hpos.
  - intros r Hr. apply (filteredData_below8 db flt r Hon).
    now apply destResponses_chain in Hr.
Qed.

Lemma below8_is_100_under_filter_witness :
  (DestStat.below8 (destStat trendDb defaultFilters bali 0.5%Q) == 100)%Q.
Proof.
  apply (below8_is_100_under_filter trendDb defaultFilters bali 0.5%Q).
  - reflexivity.
  - vm_compute. discriminate.
Defined.

(** C10: every row has a strictly positive average; a destination whose
    average is not positive has no row, in particular one all of whose
    responses score 0 overall, though it has data. *)
Theorem rows_have_positive_average
    (db : Dataset) (flt : Filters) (rand : nat -> Q) :
  (forall row, In row (destStats db flt rand) -> (0 < DestStat.avg row)%Q)
  /\ (forall dest,
        ~ (0 < avgOf (destResponses db flt dest))%Q ->
        forall row, In row (destStats db flt rand) ->
                    Destination.id (DestStat.dest row) <> Destination.id dest)
  /\ (forall dest,
        destResponses db flt dest <> [] ->
        (forall r, In r (destResponses db flt dest) -> (overallOf r == 0)%Q) ->
        forall row, In row (destStats db flt rand) ->
                    Destination.id (DestStat.dest row) <> Destination.id dest).
Proof.
  assert (Hnot : forall dest,
             ~ (0 < avgOf (destResponses db flt dest))%Q ->
             forall row, In row (destStats db flt rand) ->
                         Destination.id (DestStat.dest row) <> Destination.id dest).
  { intros dest Hnp row Hrow Hid.
    apply In_destStats in Hrow as ((n & d & _ & ->) & Hpos).
    simpl in Hid, Hpos.
    now rewrite (destResponses_id db flt d dest Hid) in Hpos. }
  split; [|split]; auto.
  - intros row Hrow. now apply In_destStats in Hrow.
  - intros dest _ Hz. apply Hnot. rewrite (avgOf_zero _ Hz). apply Qlt_irrefl.
Qed.

Lemma rows_have_positive_average_witness :
  destResponses zeroDb defaultFilters bali <> []
  /\ Forall (fun row => Destination.id (DestStat.dest row) <> "d1")
       (destStats zeroDb defaultFilters halfOracle).
Proof.
  split; [vm_compute; discriminate|]. apply Forall_forall.
  apply (proj2 (proj2 (rows_have_positive_average zeroDb defaultFilters
                         halfOracle)) bali).
  - vm_compute. discriminate.
  - intros r Hr. vm_compute in Hr. destruct Hr as [<-|[]]. reflexivity.
Defined.

Lemma destStats_delta_range db flt rand row :
  validOracle rand -> In row (destStats db flt rand) ->
  (-1.4 <= DestStat.delta row /\ DestStat.delta row < 0.6)%Q.
Proof.
  intros Hv Hrow. apply In_destStats in Hrow as ((n & d & _ & ->) & _).
  simpl. destruct (Hv n). split; lra.
Qed.

(** C1, as the code has it: the delta of a row is (u - 0.7) * 2, where u
    is the draw of [Math.random] made for the destination of the row; it
    is no function of the responses and lies in [-1.4, 0.6). Every
    destination whose average is positive has its row, whatever data it
    has in any period, and the rows are in ascending order of this
    value. *)
Theorem delta_is_a_random_draw
    (db : Dataset) (flt : Filters) (rand : nat -> Q) :
  (forall row, In row (destStats db flt rand) ->
     exists n, nth_error (destinations db) n = Some (DestStat.dest row)
               /\ DestStat.delta row = ((rand n - 0.7) * 2)%Q)
  /\ (validOracle rand ->
      forall row, In row (destStats db flt rand) ->
        (-1.4 <= DestStat.delta row /\ DestStat.delta row < 0.6)%Q)
  /\ (forall n dest,
        nth_error (destinations db) n = Some dest ->
        (0 < avgOf (destResponses db flt dest))%Q ->
        In (destStat db flt dest (rand n)) (destStats db flt rand))
  /\ StronglySorted (fun a b => (DestStat.delta a <= DestStat.delta b)%Q)
       (destStats db flt rand).
Proof.
  split; [|split; [|split]].
  - intros row Hrow. apply In_destStats in Hrow as ((n & d & Hn & ->) & _).
    now exists n.
  - intros Hv row. now apply destStats_delta_range.
  - intros n dest Hn Hpos. apply In_destStats. split; eauto.
  - apply destStats_sorted.
Qed.

Lemma delta_is_a_random_draw_witness :
  validOracle halfOracle
  /\ Forall
       (fun row => (-1.4 <= DestStat.delta row /\ DestStat.delta row < 0.6)%Q)
       (destStats trendDb defaultFilters halfOracle).
Proof.
  assert (Hv : validOracle halfOracle).
  { intros n. unfold halfOracle. split; lra. }
  split; [exact Hv|]. apply Forall_forall.
  now apply (delta_is_a_random_draw trendDb defaultFilters halfOracle).
Defined.

(** C1 fails as stated. Under the default filters Bali averages 7 in the
    first week and 5 in the second, a difference of -2, and its row shows
    -0.4; Iceland has no response left in the first week and is ranked all
    the same. *)
Lemma delta_is_not_period_difference :
  let rows := destStats trendDb defaultFilters halfOracle in
  map (fun s => Destination.id (DestStat.dest s)) rows = ["d1"; "d2"]
  /\ Forall (fun s => (DestStat.delta s == -0.4)%Q) rows
  /\ (exists q, spec_delta trendDb defaultFilters Week 1 bali = Some q
                /\ (q == -2)%Q /\ ~ (-0.4 == q)%Q)
  /\ spec_delta trendDb defaultFilters Week 1 iceland = None.
Proof.
  split; [reflexivity|]. split; [|split].
  - vm_compute. repeat constructor.
  - eexists. split; [vm_compute; reflexivity|]. split; [reflexivity|].
    intros H. discriminate H.
  - reflexivity.
Qed.

(** No draw of the oracle makes Bali's delta the period difference. *)
Lemma delta_never_period_difference (rand : nat -> Q) :
  validOracle rand ->
  forall row, In row (destStats trendDb defaultFilters rand) ->
              ~ (DestStat.delta row == -2)%Q.
Proof.
  intros Hv row Hrow E.
  destruct (destStats_delta_range _ _ _ _ Hv Hrow) as [Hlo _]. lra.
Qed.

(** ** Impact aggregate *)

(** C6: the aggregate of no action is 0 for the score and for the
    percentage; the aggregate of a non-empty list is the mean of the
    per-action deltas. *)
Theorem impact_aggregate_is_mean :
  totalAvgImprovement [] = 0%Q
  /\ totalPctImprovement [] = 0%Q
  /\ forall filteredActions, filteredActions <> [] ->
       (totalAvgImprovement filteredActions
        == mean (map scoreDelta filteredActions))%Q
       /\ (totalPctImprovement filteredActions
           == mean (map pctDelta filteredActions))%Q.
Proof.
  split; [reflexivity|]. split; [reflexivity|].
  intros l Hne. destruct l as [|a l]; [congruence|].
  unfold totalAvgImprovement, totalPctImprovement, mean.
  change (0 <? List.length (a :: l))%nat with true. cbv iota.
  rewrite !length_map.
  rewrite (fold_left_Qsum scoreDelta), (fold_left_Qsum pctDelta).
  rewrite !Qplus_0_l. split; reflexivity.
Qed.

Lemma impact_aggregate_is_mean_witness :
  (totalAvgImprovement correctiveActions == 1.175)%Q
  /\ (totalPctImprovement correctiveActions == 41.5)%Q.
Proof.
  destruct impact_aggregate_is_mean as (_ & _ & H).
  destruct (H correctiveActions) as [Hs Hp]; [discriminate|].
  rewrite Hs, Hp. split; reflexivity.
Defined.

(** ** The complete-action form *)










(** * The rest of the dashboard: properties *)

(** ** Lists *)

Lemma filter_comm {A : Type} (p q : A -> bool) (l : list A) :
  filter p (filter q l) = filter q (filter p l).
Proof.
  induction l as [|x l IH]; simpl; auto.
  destruct (p x) eqn:Ep, (q x) eqn:Eq; simpl; rewrite ?Ep, ?Eq, IH; auto.
Qed.

Lemma filter_andb {A : Type} (p q : A -> bool) (l : list A) :
  filter p (filter q l) = filter (fun x => q x && p x) l.
Proof.
  induction l as [|x l IH]; simpl; auto.
  destruct (q x); simpl; rewrite ?IH; auto.
Qed.

Lemma filter_length_le {A : Type} (p : A -> bool) (l : list A) :
  List.length (filter p l) <= List.length l.
Proof.
  induction l as [|x l IH]; simpl; auto. destruct (p x); simpl; lia.
Qed.

(** In a list whose keys are pairwise distinct, [find] by key returns the
    element that carries the key. *)
Lemma find_by_key {A : Type} (key : A -> string) (l : list A) (x : A) :
  NoDup (map key l) -> In x l ->
  find (fun y => String.eqb (key y) (key x)) l = Some x.
Proof.
  induction l as [|y l IH]; simpl; intros Hnd Hin; [tauto|].
  inversion Hnd as [|? ? Hny Hnd']; subst.
  destruct Hin as [->|Hin].
  - now rewrite String.eqb_refl.
  - destruct (String.eqb (key y) (key x)) eqn:E; auto.
    apply String.eqb_eq in E. exfalso. apply Hny. rewrite E.
    now apply in_map.
Qed.

(** ** Filtering *)

Section FilterFacts.
Variable db : Dataset.

(** The threshold filter commutes with the other two. *)
Lemma filteredData_threshold dest pl :
  filteredData db (mkFilters true dest pl)
  = filter isBelow8 (filteredData db (mkFilters false dest pl)).
Proof.
  unfold filteredData. simpl.
  destruct (negb (String.eqb dest "All")), pl; simpl; auto.
  - now rewrite (filter_comm isBelow8), (filter_comm isBelow8).
  - now rewrite (filter_comm isBelow8).
  - now rewrite (filter_comm isBelow8).
Qed.

Lemma dialogFilteredData_eq flt :
  dialogFilteredData db flt
  = filteredData db (mkFilters (onlyBelow8 flt) (filterDestination flt) None).
Proof.
  unfold dialogFilteredData, filteredData. simpl.
  destruct (onlyBelow8 flt), (negb (String.eqb (filterDestination flt) "All"));
    simpl.
  - rewrite filter_andb. apply filter_ext. intros r. unfold isBelow8, Qltb.
    destruct (Qle_bool 8 _); simpl; auto.
    now destruct (includes _ _).
  - apply filter_ext. intros r. unfold isBelow8, Qltb.
    now destruct (Qle_bool 8 _).
  - apply filter_ext. intros r. now destruct (includes _ _).
  - induction (surveyResponses db) as [|r l IH]; simpl; congruence.
Qed.

Lemma filteredData_in_dialog flt r :
  In r (filteredData db flt) -> In r (dialogFilteredData db flt).
Proof.
  rewrite dialogFilteredData_eq. unfold filteredData. simpl.
  destruct (productLine flt); auto.
  rewrite filter_In. tauto.
Qed.
End FilterFacts.

(** X1: turning on the below-8 filter keeps exactly the responses below
    8 of what the other two filters keep, whatever these are; it never
    adds a response. *)
Theorem threshold_filter_commutes
    (db : Dataset) (dest : string) (pl : option ProductLine) :
  filteredData db (mkFilters true dest pl)
  = filter isBelow8 (filteredData db (mkFilters false dest pl))
  /\ List.length (filteredData db (mkFilters true dest pl))
     <= List.length (filteredData db (mkFilters false dest pl))
  /\ Forall (fun r => (overallOf r < 8)%Q)
       (filteredData db (mkFilters true dest pl)).
Proof.
  rewrite filteredData_threshold. split; [reflexivity|]. split.
  - apply filter_length_le.
  - apply Forall_forall. intros r Hr. apply filter_In in Hr as [_ Hr].
    now apply Qltb_lt in Hr.
Qed.

(** X2: the issue dialog filters the responses as the pages do with the
    product line set to All: it ignores the product line, so it shows
    every response the page counts and possibly more. *)
Theorem dialog_filter_ignores_product_line (db : Dataset) (flt : Filters) :
  dialogFilteredData db flt
  = filteredData db (mkFilters (onlyBelow8 flt) (filterDestination flt) None)
  /\ incl (filteredData db flt) (dialogFilteredData db flt).
Proof.
  split.
  - apply dialogFilteredData_eq.
  - intros r. apply filteredData_in_dialog.
Qed.

(** ** Destinations and their responses *)

Lemma NoDup_map_inj {A : Type} (key : A -> string) (l : list A) (a b : A) :
  NoDup (map key l) -> In a l -> In b l -> key a = key b -> a = b.
Proof.
  intros Hnd Ha Hb E.
  assert (Ha' := find_by_key key l a Hnd Ha).
  assert (Hb' := find_by_key key l b Hnd Hb).
  rewrite E, Hb' in Ha'. congruence.
Qed.

Section ChainFacts.
Variable db : Dataset.
Hypothesis tours_unique : NoDup (map Tour.id (tours db)).
Hypothesis itineraries_unique : NoDup (map Itinerary.id (itineraries db)).

Lemma toursOfDestination_In destId tourId :
  In tourId (toursOfDestination db destId)
  <-> exists t i,
      In t (tours db) /\ In i (itineraries db)
      /\ Tour.id t = tourId
      /\ Tour.itineraryId t = Itinerary.id i
      /\ Itinerary.destinationId i = destId.
Proof using Type.
  unfold toursOfDestination. rewrite in_map_iff. split.
  - intros (t & Ht & Hf). apply filter_In in Hf as (Htin & Hinc).
    apply includes_In, in_map_iff in Hinc as (i & Hi & Hfi).
    apply filter_In in Hfi as (Hiin & E). apply String.eqb_eq in E.
    now exists t, i.
  - intros (t & i & Ht & Hi & E1 & E2 & E3). exists t. split; auto.
    apply filter_In. split; auto.
    apply includes_In, in_map_iff. exists i. split; auto.
    apply filter_In. split; auto. now apply String.eqb_eq.
Qed.

(** With distinct ids, a tour id leads to one destination only. *)
Lemma toursOfDestination_disjoint d1 d2 tourId :
  In tourId (toursOfDestination db d1) ->
  In tourId (toursOfDestination db d2) -> d1 = d2.
Proof using tours_unique itineraries_unique.
  intros H1 H2.
  apply toursOfDestination_In in H1 as (t1 & i1 & Ht1 & Hi1 & E1 & F1 & G1).
  apply toursOfDestination_In in H2 as (t2 & i2 & Ht2 & Hi2 & E2 & F2 & G2).
  assert (t1 = t2) by (apply (NoDup_map_inj Tour.id (tours db)); congruence).
  subst t2.
  assert (i1 = i2)
    by (apply (NoDup_map_inj Itinerary.id (itineraries db)); congruence).
  congruence.
Qed.

Lemma destinationIdOf_chain r destId :
  In (SurveyResponse.tourId r) (toursOfDestination db destId) ->
  destinationIdOf db r = Some destId.
Proof using tours_unique itineraries_unique.
  intros H.
  apply toursOfDestination_In in H as (t & i & Ht & Hi & E1 & E2 & E3).
  unfold destinationIdOf, findTour. rewrite <- E1.
  rewrite (find_by_key Tour.id) by auto.
  rewrite E2, (find_by_key Itinerary.id) by auto. now rewrite E3.
Qed.
End ChainFacts.

Lemma filteredData_destination db flt r :
  filterDestination flt <> "All" ->
  In r (filteredData db flt) ->
  In (SurveyResponse.tourId r) (toursOfDestination db (filterDestination flt)).
Proof.
  intros Hne Hr. apply filteredData_in_dialog in Hr.
  unfold dialogFilteredData in Hr. apply filter_In in Hr as [_ Hr].
  apply String.eqb_neq in Hne. rewrite Hne in Hr. simpl in Hr.
  destruct (onlyBelow8 flt && _); [discriminate|].
  destruct (includes _ _) eqn:E; [|discriminate].
  now apply includes_In in E.
Qed.

(** X3: when tour ids and itinerary ids are pairwise distinct and a
    destination is selected in the filter, every row of the destination
    ranking is a row of that destination. *)
Theorem destination_filter_keeps_one_destination
    (db : Dataset) (flt : Filters) (rand : nat -> Q) :
  NoDup (map Tour.id (tours db)) ->
  NoDup (map Itinerary.id (itineraries db)) ->
  filterDestination flt <> "All" ->
  Forall (fun row => Destination.id (DestStat.dest row) = filterDestination flt)
    (destStats db flt rand).
Proof.
  intros Ht Hi Hne. apply Forall_forall. intros row Hrow.
  apply In_destStats in Hrow as ((n & d & _ & ->) & Hpos). simpl in *.
  apply avgOf_pos_nonempty in Hpos.
  destruct (destResponses db flt d) as [|r rs] eqn:E; [congruence|].
  assert (Hr : In r (destResponses db flt d)) by (rewrite E; now left).
  unfold destResponses in Hr. apply filter_In in Hr as [Hfd Hinc].
  apply includes_In in Hinc.
  apply (toursOfDestination_disjoint db Ht Hi _ _ (SurveyResponse.tourId r));
    auto.
  now apply filteredData_destination.
Qed.

Lemma destination_filter_keeps_one_destination_witness :
  Forall (fun row => Destination.id (DestStat.dest row) = "d2")
    (destStats trendDb (mkFilters true "d2" None) halfOracle)
  /\ destStats trendDb (mkFilters true "d2" None) halfOracle <> [].
Proof.
  split.
  - apply (destination_filter_keeps_one_destination trendDb
             (mkFilters true "d2" None) halfOracle).
    + vm_compute. repeat constructor; simpl; intuition discriminate.
    + vm_compute. repeat constructor; simpl; intuition discriminate.
    + discriminate.
  - vm_compute. discriminate.
Defined.

Lemma sum_filter_swap {A B : Type} (p : A -> B -> bool)
    (la : list A) (lb : list B) :
  list_sum (map (fun a => List.length (filter (p a) lb)) la)
  = list_sum (map (fun b => List.length (filter (fun a => p a b) la)) lb).
Proof.
  induction lb as [|b lb IH]; simpl.
  - induction la; simpl; auto.
  - rewrite <- IH. clear IH. induction la as [|a la IH]; simpl; auto.
    destruct (p a b); simpl; lia.
Qed.

Lemma filter_none {A : Type} (p : A -> bool) (l : list A) :
  (forall x, In x l -> p x = false) -> filter p l = [].
Proof.
  induction l as [|x l IH]; intros H; simpl; auto.
  rewrite (H x) by now left. apply IH. intros; apply H; now right.
Qed.

Lemma filter_singleton {A : Type} (p : A -> bool) (l : list A) (x : A) :
  NoDup l -> In x l -> (forall y, In y l -> p y = true <-> y = x) ->
  List.length (filter p l) = 1.
Proof.
  induction l as [|y l IH]; simpl; intros Hnd Hin Hp; [tauto|].
  inversion Hnd as [|? ? Hny Hnd']; subst.
  destruct Hin as [->|Hin].
  - rewrite (proj2 (Hp x (or_introl eq_refl)) eq_refl). simpl. f_equal.
    rewrite filter_none; auto.
    intros z Hz. destruct (p z) eqn:E; auto.
    apply (Hp z (or_intror Hz)) in E. now subst.
  - destruct (p y) eqn:E.
    + apply (Hp y (or_introl eq_refl)) in E. now subst.
    + apply IH; auto.
Qed.

(** X4: when the ids of destinations, itineraries and tours are pairwise
    distinct and every kept response leads to a listed destination, each
    kept response is counted for exactly one destination: the review
    counts of the destinations add up to the number of kept responses. *)
Theorem destinations_partition_responses (db : Dataset) (flt : Filters) :
  NoDup (map Destination.id (destinations db)) ->
  NoDup (map Tour.id (tours db)) ->
  NoDup (map Itinerary.id (itineraries db)) ->
  (forall r, In r (filteredData db flt) ->
     exists dest, In dest (destinations db) /\ mappedTo db r dest) ->
  forall draw : Destination.t -> Q,
  list_sum
    (map (fun dest => DestStat.totalReviews (destStat db flt dest (draw dest)))
       (destinations db))
  = List.length (filteredData db flt).
Proof.
  intros Hd Ht Hi Hres draw. simpl. unfold destResponses.
  rewrite (sum_filter_swap
             (fun dest r =>
                includes (toursOfDestination db (Destination.id dest))
                  (SurveyResponse.tourId r))).
  rewrite (map_ext_in _ (fun _ => 1)).
  - clear Hres. induction (filteredData db flt); simpl; congruence.
  - intros r Hr. destruct (Hres r Hr) as (dest & Hdest & Hmap).
    apply (filter_singleton _ _ dest); auto.
    + eapply NoDup_map_inv; eauto.
    + intros d Hdin. rewrite includes_In. split.
      * intros Hin. apply (NoDup_map_inj Destination.id (destinations db)); auto.
        apply (toursOfDestination_disjoint db Ht Hi _ _ (SurveyResponse.tourId r));
          auto.
        now apply toursOfDestination_In.
      * intros ->. now apply toursOfDestination_In.
Qed.

Lemma destinations_partition_responses_witness :
  list_sum
    (map (fun dest => DestStat.totalReviews (destStat trendDb defaultFilters dest 0.5%Q))
       (destinations trendDb))
  = 3.
Proof.
  apply (destinations_partition_responses trendDb defaultFilters) with
    (draw := fun _ => 0.5%Q).
  - vm_compute. repeat constructor; simpl; intuition discriminate.
  - vm_compute. repeat constructor; simpl; intuition discriminate.
  - vm_compute. repeat constructor; simpl; intuition discriminate.
  - intros r Hr. vm_compute in Hr.
    destruct Hr as [<-|[<-|[<-|[]]]].
    + exists bali. split; [now left|].
      exists (sampleTour "t-i1-w0" "i1" "2024-11-01" "2024-11-08"),
        (Itinerary.mk "i1" "Bali Beach & Culture" "d1").
      simpl. intuition.
    + exists bali. split; [now left|].
      exists (sampleTour "t-i1-w1" "i1" "2024-11-08" "2024-11-15"),
        (Itinerary.mk "i1" "Bali Beach & Culture" "d1").
      simpl. intuition.
    + exists iceland. split; [simpl; auto|].
      exists (sampleTour "t-i3-w1" "i3" "2024-11-08" "2024-11-15"),
        (Itinerary.mk "i3" "Iceland Ring Road" "d2").
      simpl. intuition.
Defined.

(** ** Top issue and summary cards *)

Section UpdFold.
Context {V : Type}.
Variable f : option V -> V.

Lemma upd_nonempty k (m : list (string * V)) : upd k f m <> [].
Proof.
  destruct m as [|[k' v] m]; simpl; [discriminate|].
  destruct (String.eqb k' k); discriminate.
Qed.

Lemma fold_upd_nil tags (m : list (string * V)) :
  fold_left (fun m t => upd t f m) tags m = [] <-> tags = [] /\ m = [].
Proof.
  revert m. induction tags as [|t tags IH]; intros m; simpl.
  - tauto.
  - rewrite IH. split; [|intros [? _]; discriminate].
    intros [_ H]. now apply upd_nonempty in H.
Qed.
End UpdFold.

Lemma destIssuesOf_nil db rs :
  destIssuesOf db rs = [] <-> forall r, In r rs -> responseTags db r = [].
Proof.
  unfold destIssuesOf.
  assert (H : forall m,
             fold_left (clusterResponse db) rs m = []
             <-> m = [] /\ forall r, In r rs -> responseTags db r = []).
  { induction rs as [|r rs IH]; intros m; simpl.
    - tauto.
    - rewrite IH. unfold clusterResponse.
      assert (Hr : responseTags db r
                   = match findAnnotation db r with
                     | Some ann => allTags ann
                     | None => []
                     end) by reflexivity.
      destruct (findAnnotation db r) as [ann|].
      + unfold recordIssue. rewrite fold_upd_nil. split.
        * intros [[Ht ->] Hrs]. split; auto.
          intros r' [<-|Hin]; auto. congruence.
        * intros [-> Hall]. split; [split|]; auto.
          rewrite <- Hr. apply Hall. now left.
      + split.
        * intros [-> Hrs]. split; auto. intros r' [<-|Hin]; auto.
        * intros [-> Hall]. split; auto. }
  rewrite H. tauto.
Qed.

Lemma issuesCountOf_nil db rs :
  issuesCountOf db rs = [] <-> forall r, In r rs -> responseTags db r = [].
Proof.
  unfold issuesCountOf.
  assert (H : forall m,
             fold_left (countResponse db) rs m = []
             <-> m = [] /\ forall r, In r rs -> responseTags db r = []).
  { induction rs as [|r rs IH]; intros m; simpl.
    - tauto.
    - rewrite IH. unfold countResponse.
      assert (Hr : responseTags db r
                   = match findAnnotation db r with
                     | Some ann => allTags ann
                     | None => []
                     end) by reflexivity.
      destruct (findAnnotation db r) as [ann|].
      + unfold bump. rewrite fold_upd_nil. split.
        * intros [[Ht ->] Hrs]. split; auto.
          intros r' [<-|Hin]; auto. congruence.
        * intros [-> Hall]. split; [split|]; auto.
          rewrite <- Hr. apply Hall. now left.
      + split.
        * intros [-> Hrs]. split; auto. intros r' [<-|Hin]; auto.
        * intros [-> Hall]. split; auto. }
  rewrite H. tauto.
Qed.

Lemma js_sort_nil {A : Type} (pos : A -> A -> bool) (l : list A) :
  js_sort pos l = [] <-> l = [].
Proof.
  split; [|now intros ->]. intros H.
  assert (Hp := js_sort_perm pos l). rewrite H in Hp.
  now apply Permutation_sym, Permutation_nil in Hp.
Qed.

(** X5: the top issue is missing (shown as N/A) exactly when no kept
    response carries a tag: on the overview for the kept responses as a
    whole, in a destination row for the kept responses of the
    destination. *)
Theorem top_issue_missing_iff_no_tag
    (db : Dataset) (flt : Filters) (dest : Destination.t) (u : Q) :
  (topIssue db flt = None
   <-> forall r, In r (filteredData db flt) -> responseTags db r = [])
  /\ (DestStat.topIssue (destStat db flt dest u) = None
      <-> forall r, In r (destResponses db flt dest) -> responseTags db r = []).
Proof.
  split.
  - unfold topIssue, rankIssues, issuesCount.
    rewrite <- issuesCountOf_nil, <- (js_sort_nil (descending snd)).
    destruct (js_sort _ _); simpl; split; congruence.
  - simpl. unfold rankClusters.
    rewrite <- destIssuesOf_nil,
      <- (js_sort_nil (descending (fun e => IssueCluster.count (snd e)))).
    destruct (js_sort _ _); simpl; split; congruence.
Qed.


Lemma fold_left_avg_pos (rows : list DestStat.t) (a : Q) :
  (0 <= a)%Q -> Forall (fun s => (0 < DestStat.avg s)%Q) rows -> rows <> [] ->
  (0 < fold_left (fun sum s => sum + DestStat.avg s) rows a)%Q.
Proof.
  intros Ha Hall Hne. rewrite (fold_left_Qsum DestStat.avg).
  destruct rows as [|s rows]; [congruence|]. clear Hne.
  inversion Hall as [|? ? Hs Hrows]; subst. simpl.
  assert (0 <= Qsum (map DestStat.avg rows))%Q.
  { clear Hall Hs. induction Hrows as [|s' rows' Hs' _ IH]; simpl; lra. }
  lra.
Qed.

(** X7: the average score card of the destinations page is NaN exactly
    when the ranking has no row; otherwise it is the mean of the row
    averages, a finite positive number. *)
Theorem destinations_average_card
    (db : Dataset) (flt : Filters) (rand : nat -> Q) :
  (destStats db flt rand = [] <-> destinationsAvg db flt rand = NaN)
  /\ (destStats db flt rand <> [] ->
      exists q, destinationsAvg db flt rand = Finite q
                /\ (0 < q)%Q
                /\ (q == mean (map DestStat.avg (destStats db flt rand)))%Q).
Proof.
  assert (Hpos : Forall (fun s => (0 < DestStat.avg s)%Q) (destStats db flt rand)).
  { apply Forall_forall. intros row Hrow. now apply In_destStats in Hrow. }
  unfold destinationsAvg.
  destruct (destStats db flt rand) as [|s rows] eqn:E.
  - split; [split; reflexivity | congruence].
  - split; [split; discriminate|]. intros _.
    eexists. split; [reflexivity|]. split.
    + apply Qlt_shift_div_l; [apply ofNat_pos; simpl; lia|].
      rewrite Qmult_0_l. apply fold_left_avg_pos; [lra | auto | discriminate].
    + unfold mean. rewrite length_map, (fold_left_Qsum DestStat.avg).
      now rewrite Qplus_0_l.
Qed.

Lemma destinations_average_card_witness :
  exists q, destinationsAvg trendDb defaultFilters halfOracle = Finite q
            /\ (0 < q)%Q
            /\ (q == mean (map DestStat.avg
                             (destStats trendDb defaultFilters halfOracle)))%Q.
Proof.
  apply (destinations_average_card trendDb defaultFilters halfOracle).
  vm_compute. discriminate.
Defined.

(** ** Issue details dialog *)

Section DialogFacts.
Variable db : Dataset.
Variable flt : Filters.
Variable tag : string.

Lemma carries_count r :
  (if carriesTag db tag r then 1 else 0) <= count_occ string_dec (responseTags db r) tag
  /\ (NoDup (responseTags db r) ->
      (if carriesTag db tag r then 1 else 0) = count_occ string_dec (responseTags db r) tag).
Proof.
  unfold carriesTag, responseTags.
  destruct (findAnnotation db r) as [ann|]; simpl; [|split; auto].
  destruct (includes (allTags ann) tag) eqn:E.
  - apply includes_In in E. apply (count_occ_In string_dec) in E. split; [lia|].
    intros Hnd. apply (NoDup_count_occ string_dec) with (x := tag) in Hnd. lia.
  - assert (Hn : ~ In tag (allTags ann)).
    { intros H. apply includes_In in H. congruence. }
    apply (count_occ_not_In string_dec) in Hn. rewrite Hn. split; auto.
Qed.

Lemma issueResponses_length :
  List.length (issueResponses db flt tag)
  = list_sum (map (fun r => if carriesTag db tag r then 1 else 0)
                (dialogFilteredData db flt)).
Proof.
  unfold issueResponses. fold (carriesTag db tag).
  induction (dialogFilteredData db flt) as [|r rs IH]; simpl; auto.
  destruct (carriesTag db tag r); simpl; lia.
Qed.

Lemma severityCount_total rs c :
  (forall r, In r rs -> findAnnotation db r <> None) ->
  SeverityCount.total
    (fold_left
       (fun severityCount r =>
          match findAnnotation db r with
          | Some ann => incrSeverity (Annotation.severity ann) severityCount
          | None => severityCount
          end)
       rs c)
  = SeverityCount.total c + List.length rs.
Proof.
  revert c. induction rs as [|r rs IH]; intros c Hall; simpl.
  - lia.
  - rewrite IH by (intros; apply Hall; now right).
    specialize (Hall r (or_introl eq_refl)).
    destruct (findAnnotation db r) as [ann|]; [|congruence].
    unfold SeverityCount.total. destruct (Annotation.severity ann); simpl; lia.
Qed.
End DialogFacts.

(** X8: in the issue dialog the three severity cards add up to the
    total occurrences card. *)
Theorem dialog_severities_add_up (db : Dataset) (flt : Filters) (tag : string) :
  SeverityCount.LOW (severityCount db flt tag)
  + SeverityCount.MEDIUM (severityCount db flt tag)
  + SeverityCount.HIGH (severityCount db flt tag)
  = List.length (issueResponses db flt tag).
Proof.
  unfold severityCount.
  change (SeverityCount.total
            (fold_left
               (fun severityCount r =>
                  match findAnnotation db r with
                  | Some ann => incrSeverity (Annotation.severity ann) severityCount
                  | None => severityCount
                  end)
               (issueResponses db flt tag) (SeverityCount.mk 0 0 0))
          = List.length (issueResponses db flt tag)).
  rewrite severityCount_total; [reflexivity|].
  intros r Hr. unfold issueResponses in Hr. apply filter_In in Hr as [_ Hr].
  now destruct (findAnnotation db r).
Qed.

(** X9: the dialog counts the responses that carry the tag, the issue
    table counts the occurrences of the tag: over the same responses the
    first number never exceeds the second, and the two agree when no
    annotation repeats a tag. With the product line set to All the two
    views do read the same responses. *)
Theorem dialog_total_at_most_table_count
    (db : Dataset) (flt : Filters) (tag : string) :
  List.length (issueResponses db flt tag)
  <= countOf tag (issuesCountOf db (dialogFilteredData db flt))
  /\ ((forall r, In r (dialogFilteredData db flt) -> NoDup (responseTags db r)) ->
      List.length (issueResponses db flt tag)
      = countOf tag (issuesCountOf db (dialogFilteredData db flt)))
  /\ (productLine flt = None ->
      issuesCountOf db (dialogFilteredData db flt) = issuesCount db flt).
Proof.
  rewrite issueResponses_length.
  unfold issuesCountOf at 1 2. rewrite issuesCountOf_measure. simpl.
  split; [|split].
  - induction (dialogFilteredData db flt) as [|r rs IH]; simpl; auto.
    destruct (carries_count db tag r) as [H _]. lia.
  - intros Hnd.
    induction (dialogFilteredData db flt) as [|r rs IH]; simpl; auto.
    destruct (carries_count db tag r) as [_ H].
    rewrite H by (apply Hnd; now left).
    rewrite IH; auto. intros; apply Hnd; now right.
  - intros Hpl. unfold issuesCount. rewrite dialogFilteredData_eq.
    destruct flt; simpl in *. now subst.
Qed.

Lemma setFrom_constant {A : Type} (eqb : A -> A -> bool) (x : A) (l : list A) :
  eqb x x = true -> Forall (eq x) l ->
  setFrom eqb l = match l with [] => [] | _ :: _ => [x] end.
Proof.
  intros Hrefl Hall. unfold setFrom.
  destruct Hall as [|y l <- Hall]; simpl; auto.
  unfold setAdd at 2. simpl.
  induction Hall as [|y l <- _ IH]; simpl; auto.
  unfold setAdd at 2. simpl. now rewrite Hrefl.
Qed.

(** X10: when tour ids and itinerary ids are pairwise distinct and a
    destination is selected in the filter, the dialog lists that
    destination alone as affected, or none when no kept response carries
    the tag. *)
Theorem dialog_affected_destination
    (db : Dataset) (flt : Filters) (tag : string) :
  NoDup (map Tour.id (tours db)) ->
  NoDup (map Itinerary.id (itineraries db)) ->
  filterDestination flt <> "All" ->
  affectedDestinations db flt tag
  = match issueResponses db flt tag with
    | [] => []
    | _ :: _ => [Some (filterDestination flt)]
    end.
Proof.
  intros Ht Hi Hne. unfold affectedDestinations.
  rewrite (setFrom_constant _ (Some (filterDestination flt))).
  - now destruct (issueResponses db flt tag).
  - apply String.eqb_refl.
  - apply Forall_map, Forall_forall. intros r Hr. symmetry.
    apply destinationIdOf_chain; auto.
    unfold issueResponses in Hr. apply filter_In in Hr as [Hr _].
    unfold dialogFilteredData in Hr. apply filter_In in Hr as [_ Hr].
    apply String.eqb_neq in Hne. rewrite Hne in Hr. simpl in Hr.
    destruct (onlyBelow8 flt && _); [discriminate|].
    destruct (includes _ _) eqn:E; [|discriminate].
    now apply includes_In in E.
Qed.

Lemma dialog_affected_destination_witness :
  affectedDestinations trendDb (mkFilters true "d1" None) "cleanliness_hygiene"
  = [Some "d1"].
Proof.
  rewrite (dialog_affected_destination trendDb (mkFilters true "d1" None)
             "cleanliness_hygiene").
  - reflexivity.
  - vm_compute. repeat constructor; simpl; intuition discriminate.
  - vm_compute. repeat constructor; simpl; intuition discriminate.
  - discriminate.
Defined.

(** ** Suggested actions page *)

Lemma priority_groups (l : list SuggestedAction.t) :
  StronglySorted
    (fun a b =>
       (priorityOrder (SuggestedAction.priority a)
        <= priorityOrder (SuggestedAction.priority b))%Z) l ->
  l = ofPriority PrioCRITICAL l ++ ofPriority PrioHIGH l
        ++ ofPriority PrioMEDIUM l ++ ofPriority PrioLOW l.
Proof.
  induction 1 as [|x l Hs IH Hx]; [reflexivity|].
  assert (Hnone : forall p,
             (priorityOrder p < priorityOrder (SuggestedAction.priority x))%Z ->
             ofPriority p l = []).
  { intros p Hp. apply filter_none. intros y Hy.
    rewrite Forall_forall in Hx. specialize (Hx y Hy).
    destruct p, (SuggestedAction.priority y), (SuggestedAction.priority x);
      simpl in *; auto; lia. }
  unfold ofPriority at 1 2 3 4. simpl. fold (ofPriority PrioCRITICAL l)
    (ofPriority PrioHIGH l) (ofPriority PrioMEDIUM l) (ofPriority PrioLOW l).
  destruct (SuggestedAction.priority x) eqn:E; simpl.
  - rewrite (Hnone PrioCRITICAL), (Hnone PrioHIGH), (Hnone PrioMEDIUM)
      by (simpl; lia).
    simpl. f_equal. rewrite IH at 1.
    now rewrite (Hnone PrioCRITICAL), (Hnone PrioHIGH), (Hnone PrioMEDIUM)
      by (simpl; lia).
  - rewrite (Hnone PrioCRITICAL), (Hnone PrioHIGH) by (simpl; lia).
    simpl. f_equal. rewrite IH at 1.
    now rewrite (Hnone PrioCRITICAL), (Hnone PrioHIGH) by (simpl; lia).
  - rewrite (Hnone PrioCRITICAL) by (simpl; lia).
    simpl. f_equal. rewrite IH at 1.
    now rewrite (Hnone PrioCRITICAL) by (simpl; lia).
  - f_equal. exact IH.
Qed.

(** X11: the suggested actions page lists the actions of the selected
    destination (all of them under All) in four groups, critical first,
    then high, medium and low, each group in the order of the source
    list. *)
Theorem listed_actions_grouped_by_priority
    (flt : Filters) (sas : list SuggestedAction.t) :
  let shown :=
    filter
      (fun action =>
         String.eqb (filterDestination flt) "All"
         || String.eqb (SuggestedAction.destinationId action)
              (filterDestination flt))
      sas in
  listedActions flt sas
  = ofPriority PrioCRITICAL shown ++ ofPriority PrioHIGH shown
      ++ ofPriority PrioMEDIUM shown ++ ofPriority PrioLOW shown.
Proof.
  intros shown. unfold listedActions. fold shown.
  set (pos := fun a b : SuggestedAction.t =>
                (0 <? priorityOrder (SuggestedAction.priority a)
                      - priorityOrder (SuggestedAction.priority b))%Z).
  assert (Hstable : forall p,
             ofPriority p (js_sort pos shown) = ofPriority p shown).
  { intros p. apply js_sort_filter. intros x y Hx Hy. unfold pos.
    apply Z.ltb_ge.
    destruct p, (SuggestedAction.priority x), (SuggestedAction.priority y);
      simpl in *; try discriminate; lia. }
  rewrite <- !Hstable. apply priority_groups.
  apply js_sort_sorted; unfold pos.
  - intros; lia.
  - intros x y H. apply Z.ltb_ge in H. lia.
  - intros x y H. apply Z.ltb_lt in H. lia.
Qed.

Lemma status_partition (l : list SuggestedAction.t) :
  List.length (filter (fun a => Status_eqb (SuggestedAction.status a) SUGGESTED) l)
  + List.length (filter (fun a => Status_eqb (SuggestedAction.status a) PLANNED) l)
  + List.length (filter (fun a => Status_eqb (SuggestedAction.status a) IN_PROGRESS) l)
  + List.length (filter (fun a => Status_eqb (SuggestedAction.status a) COMPLETED) l)
  + List.length (filter (fun a => Status_eqb (SuggestedAction.status a) CANCELLED) l)
  = List.length l.
Proof.
  induction l as [|a l IH]; simpl; auto.
  destruct (SuggestedAction.status a); simpl; lia.
Qed.

(** X12: the four status cards of the suggested actions page leave the
    cancelled actions out: together with the number of listed cancelled
    actions they add up to the number of listed actions. *)
Theorem status_cards_omit_cancelled
    (flt : Filters) (sas : list SuggestedAction.t) :
  StatusCounts.suggested (statusCounts flt sas)
  + StatusCounts.planned (statusCounts flt sas)
  + StatusCounts.inProgress (statusCounts flt sas)
  + StatusCounts.completed (statusCounts flt sas)
  + countStatus flt sas CANCELLED
  = List.length (listedActions flt sas).
Proof. simpl. unfold countStatus. apply status_partition. Qed.

(** ** Destination page *)

(** X13: the destination page reads the responses of its destination
    with no filter applied: they are what the ranking uses for that
    destination when every filter is off, and they include what it uses
    under any filter. *)
Theorem destination_page_ignores_filters
    (db : Dataset) (flt : Filters) (dest : Destination.t) :
  pageResponses db (Destination.id dest)
  = destResponses db (mkFilters false "All" None) dest
  /\ incl (destResponses db flt dest) (pageResponses db (Destination.id dest)).
Proof.
  assert (Hpage : forall r,
             In r (pageResponses db (Destination.id dest))
             <-> In r (surveyResponses db)
                 /\ includes (toursOfDestination db (Destination.id dest))
                      (SurveyResponse.tourId r) = true).
  { intros r. unfold pageResponses. now rewrite filter_In. }
  split; [reflexivity|].
  intros r Hr. apply Hpage. unfold destResponses in Hr.
  apply filter_In in Hr as [Hfd Hinc]. split; auto.
  apply filteredData_in_dialog in Hfd. unfold dialogFilteredData in Hfd.
  now apply filter_In in Hfd.
Qed.

Lemma firstn_length_le {A : Type} (n : nat) (l : list A) :
  List.length (firstn n l) <= n.
Proof. rewrite length_firstn. lia. Qed.

(** X14: the evidence list of the destination page is made of the
    annotated responses among the first ten responses of the destination
    and of nothing else: it has at most ten items, and an annotated
    response further down is not shown. *)
Theorem evidence_from_first_ten (db : Dataset) (sel : string) :
  map EvidenceItem.response (evidenceItems db sel)
  = filter (isAnnotated db) (firstn 10 (pageResponses db sel))
  /\ List.length (evidenceItems db sel) <= 10
  /\ Forall
       (fun item =>
          EvidenceItem.annotation item
          = findAnnotation db (EvidenceItem.response item)
          /\ EvidenceItem.annotation item <> None)
       (evidenceItems db sel).
Proof.
  unfold evidenceItems.
  assert (Hlen := firstn_length_le 10 (pageResponses db sel)).
  induction (firstn 10 (pageResponses db sel)) as [|r rs IH]; simpl in *.
  - repeat split; auto; lia.
  - unfold isAnnotated at 1.
    destruct (findAnnotation db r) as [ann|] eqn:E; simpl.
    + destruct IH as (IH1 & IH2 & IH3); [lia|]. rewrite IH1.
      repeat split; auto.
      * assert (H := filter_length_le
                       (fun item =>
                          match EvidenceItem.annotation item with
                          | Some _ => true
                          | None => false
                          end)
                       (map
                          (fun r0 =>
                             EvidenceItem.mk r0 (findAnnotation db r0)
                               (findTour db (SurveyResponse.tourId r0)))
                          rs)).
        rewrite length_map in H. lia.
      * constructor; auto. simpl. split; [now rewrite E | discriminate].
    + destruct IH as (IH1 & IH2 & IH3); [lia|]. repeat split; auto; lia.
Qed.

(** ** Tour page *)

Lemma divByLength_cases (x : Q) (n : nat) :
  (n = 0 -> (x == 0)%Q -> divByLength x n = NaN)
  /\ (0 < n -> divByLength x n = Finite (x / ofNat n)%Q).
Proof.
  split.
  - intros -> Hx. simpl. apply Qeq_bool_iff in Hx. now rewrite Hx.
  - intros Hn. destruct n; [lia | reflexivity].
Qed.

(** X15: for a tour without responses each of the five average scores of
    the tour page is NaN; for a tour with responses each is the mean of
    the score over the responses of the tour. *)
Theorem tour_averages (db : Dataset) (sel : string) :
  (tourResponses db sel = [] ->
   avgScores db sel = AvgScores.mk NaN NaN NaN NaN NaN)
  /\ (tourResponses db sel <> [] ->
      forall f : Scores.t -> Q,
      exists q,
        avgScore db sel f = Finite q
        /\ (q == mean (map (fun r => f (SurveyResponse.scores r))
                         (tourResponses db sel)))%Q).
Proof.
  split.
  - intros H. unfold avgScores, avgScore. now rewrite H.
  - intros Hne f. unfold avgScore.
    destruct (tourResponses db sel) as [|r rs] eqn:E; [congruence|].
    eexists. split; [reflexivity|].
    unfold mean. rewrite length_map.
    rewrite (fold_left_Qsum (fun r => f (SurveyResponse.scores r))).
    now rewrite Qplus_0_l.
Qed.

Lemma tour_averages_witness :
  exists q,
    avgScore trendDb "t-i1-w1" Scores.overall = Finite q /\ (q == 5)%Q.
Proof.
  destruct (tour_averages trendDb "t-i1-w1") as [_ H].
  destruct (H ltac:(vm_compute; discriminate) Scores.overall) as (q & Hq & Hm).
  exists q. split; [exact Hq | exact Hm].
Defined.

(** X16: on the tour page the number of comments filed under a tag is
    the number of times the tag occurs in the annotations of the
    responses of the tour. *)
Theorem tour_comments_per_tag (db : Dataset) (sel tag : string) :
  measure (@List.length TagComment.t) (lookup tag (commentsByTag db sel))
  = list_sum
      (map (fun r => count_occ string_dec (responseTags db r) tag)
         (tourResponses db sel)).
Proof.
  unfold commentsByTag.
  assert (H : forall rs m,
             measure (@List.length TagComment.t)
               (lookup tag
                  (fold_left
                     (fun commentsByTag r =>
                        match findAnnotation db r with
                        | Some ann =>
                            fold_left
                              (pushComment
                                 (TagComment.mk
                                    (orElse (Comments.general (SurveyResponse.comments r))
                                       (orElse
                                          (Comments.accommodationBad
                                             (SurveyResponse.comments r))
                                          (Comments.logistics
                                             (SurveyResponse.comments r))))
                                    (Annotation.severity ann)
                                    (hd_error (Annotation.evidenceSnippets ann))))
                              (allTags ann) commentsByTag
                        | None => commentsByTag
                        end)
                     rs m))
             = measure (@List.length TagComment.t) (lookup tag m)
               + list_sum
                   (map (fun r => count_occ string_dec (responseTags db r) tag) rs)).
  { induction rs as [|r rs IH]; intros m; simpl; [lia|].
    rewrite IH. unfold responseTags.
    destruct (findAnnotation db r) as [ann|]; simpl; [|lia].
    unfold pushComment. rewrite measure_fold; [lia|].
    intros [l|]; simpl; rewrite ?length_app; simpl; lia. }
  now rewrite H.
Qed.

(** ** Opening the details of an action *)

(** X17: once a suggested action has been completed through the form, a
    click on the new row of the impact page opens the details of that
    suggested action, and the corrective action they show as related is
    the one just recorded, also when older ones exist for the same
    suggestion. *)
Theorem completed_action_opens_its_suggestion
    (sas : list SuggestedAction.t) (now : Z) (form : FormValues.t)
    (st : AppState) (action : SuggestedAction.t) :
  selectedSuggestedAction sas st = Some action ->
  actionDetails sas
    (onClickCorrectiveAction sas (newCorrectiveAction action now form)
       (onSubmit sas now form st))
  = SuggestedDetails action (Some (newCorrectiveAction action now form)).
Proof.
  intros Hsel. unfold onSubmit. rewrite Hsel.
  unfold selectedSuggestedAction in Hsel.
  destruct (selectedActionId st) as [sel|]; [|discriminate].
  assert (Hid : SuggestedAction.id action = sel).
  { apply find_some in Hsel as [_ E]. now apply String.eqb_eq in E. }
  rewrite <- Hid in Hsel.
  unfold onClickCorrectiveAction.
  cbn [newCorrectiveAction CorrectiveAction.suggestedActionId].
  rewrite Hsel. unfold actionDetails.
  cbn [selectedActionId showCompleteActionModal completedActionsState].
  rewrite Hsel.
  cbn [find newCorrectiveAction CorrectiveAction.suggestedActionId].
  now rewrite String.eqb_refl.
Qed.

Lemma completed_action_opens_its_suggestion_witness :
  exists action,
    find (fun a => String.eqb (SuggestedAction.id a) "sa-1") suggestedActions
    = Some action
    /\ actionDetails suggestedActions
         (onClickCorrectiveAction suggestedActions
            (newCorrectiveAction action 1736500000000 defaultForm)
            (onSubmit suggestedActions 1736500000000 defaultForm formOpenState))
       = SuggestedDetails action
           (Some (newCorrectiveAction action 1736500000000 defaultForm)).
Proof.
  eexists. split; [reflexivity|].
  apply (completed_action_opens_its_suggestion suggestedActions 1736500000000
           defaultForm formOpenState).
  reflexivity.
Defined.

(** ** Data generation *)

Lemma floor_scaled (u : Q) (n : Z) :
  (0 < n)%Z -> (0 <= u)%Q -> (u < 1)%Q ->
  (0 <= Qfloor (u * inject_Z n) <= n - 1)%Z.
Proof.
  intros Hn H0 H1.
  assert (Hn' : (0 < inject_Z n)%Q)
    by (change 0%Q with (inject_Z 0); now rewrite <- Zlt_Qlt).
  assert (Hlo : (0 <= u * inject_Z n)%Q) by nra.
  assert (Hhi : (u * inject_Z n < inject_Z n)%Q) by nra.
  assert (Hf1 := Qfloor_le (u * inject_Z n)).
  assert (Hf2 := Qlt_floor (u * inject_Z n)).
  split.
  - assert (H : (inject_Z 0 < inject_Z (Qfloor (u * inject_Z n) + 1))%Q)
      by (change (inject_Z 0) with 0%Q; lra).
    rewrite <- Zlt_Qlt in H. lia.
  - assert (H : (inject_Z (Qfloor (u * inject_Z n)) < inject_Z n)%Q) by lra.
    rewrite <- Zlt_Qlt in H. lia.
Qed.

Lemma subsequence_In {A : Type} (l full : list A) (x : A) :
  subsequence l full -> In x l -> In x full.
Proof. induction 1; simpl; intuition. Qed.

Lemma subsequence_NoDup {A : Type} (l full : list A) :
  subsequence l full -> NoDup full -> NoDup l.
Proof.
  induction 1 as [|x l full Hs IH|x l full Hs IH]; intros Hnd; auto.
  - inversion Hnd; auto.
  - inversion Hnd as [|? ? Hx Hnd']; subst. constructor; auto.
    intros Hxl. apply Hx. eapply subsequence_In; eauto.
Qed.

Lemma string_length_app (a b : string) :
  String.length (a ++ b)%string = String.length a + String.length b.
Proof. induction a as [|c a IH]; simpl; auto. Qed.

Lemma string_app_inj_r (a b s t : string) :
  String.length s = String.length t -> (a ++ s)%string = (b ++ t)%string ->
  a = b /\ s = t.
Proof.
  revert b. induction a as [|c a IH]; intros [|c' b] Hlen E; simpl in E.
  - auto.
  - exfalso. apply (f_equal String.length) in E. simpl in E.
    rewrite string_length_app in E. lia.
  - exfalso. apply (f_equal String.length) in E. simpl in E.
    rewrite string_length_app in E. lia.
  - injection E as -> E. destruct (IH b Hlen E) as [-> ->]. auto.
Qed.

Section GeneratorFacts.
Variable rand : nat -> Q.
Hypothesis valid : validOracle rand.

Ltac run_gen :=
  cbv [genResponse genAnnotation genScores genOverall coin pushIf bind random
       ret pushResponse pushAnnotation draws genResponses genAnnotations];
  cbn [fst snd].

Lemma genAnnotation_spec responseId overall st r :
  SurveyResponse.id r = responseId -> overallOf r = overall ->
  exists a,
    snd (genAnnotation rand responseId overall st)
    = mkGenState (genResponses st) (genAnnotations st ++ [a]) (5 + draws st)
    /\ annotates a r.
Proof using valid.
  intros Hid Hov. destruct st as [rs anns n]. run_gen.
  destruct (valid (S (S (S (S n))))) as [Hc0 Hc1].
  destruct (Qltb 0.5 (rand n)), (Qltb 0.6 (rand (S n))),
    (Qltb 0.7 (rand (S (S n)))), (Qltb 0.8 (rand (S (S (S n)))));
    (eexists; split; [reflexivity|]);
    unfold annotates; cbn [Annotation.responseId Annotation.severity
      Annotation.tags Annotation.confidence Tags.productTags
      Tags.coordinatorTags app];
    rewrite Hid, Hov; repeat split; try lra;
    repeat first [apply sub_nil | apply sub_keep | apply sub_skip].
Qed.

Lemma genOverall_run st :
  genOverall rand st
  = (if Qltb 0.3 (rand (draws st))
     then (floorQ (rand (S (draws st)) * 3) + 7)%Q
     else (floorQ (rand (S (draws st)) * 3) + 5)%Q,
     mkGenState (genResponses st) (genAnnotations st) (2 + draws st)).
Proof using Type.
  destruct st as [rs anns n]. run_gen. now destruct (Qltb 0.3 (rand n)).
Qed.

Lemma genOverall_range st :
  exists k : Z, (5 <= k <= 9)%Z /\ (fst (genOverall rand st) == inject_Z k)%Q.
Proof using valid.
  rewrite genOverall_run. cbn [fst].
  destruct (valid (S (draws st))) as [H0 H1].
  assert (Hf := floor_scaled (rand (S (draws st))) 3 ltac:(lia) H0 H1).
  unfold floorQ. change (inject_Z 3) with 3%Q in Hf.
  destruct (Qltb 0.3 (rand (draws st))).
  - exists (Qfloor (rand (S (draws st)) * 3) + 7)%Z. split; [lia|].
    now rewrite inject_Z_plus.
  - exists (Qfloor (rand (S (draws st)) * 3) + 5)%Z. split; [lia|].
    now rewrite inject_Z_plus.
Qed.

Lemma genScores_spec overall st :
  (exists k : Z, (5 <= k <= 9)%Z /\ (overall == inject_Z k)%Q) ->
  exists s,
    genScores rand overall st
    = (s, mkGenState (genResponses st) (genAnnotations st) (7 + draws st))
    /\ Scores.overall s = overall
    /\ generatedScores s.
Proof using valid.
  intros Hov. destruct st as [rs anns n]. run_gen.
  eexists. split; [reflexivity|]. split; [reflexivity|].
  unfold generatedScores.
  cbn [Scores.overall Scores.qp Scores.accommodation Scores.logistics
       Scores.preDepartureInfo Scores.coordinatorCourtesy
       Scores.coordinatorLeadership Scores.coordinatorOrganisation].
  split; [exact Hov|].
  destruct (valid (S (S (S n)))) as [H0 H1].
  assert (Hf := floor_scaled (rand (S (S (S n)))) 2 ltac:(lia) H0 H1).
  change (inject_Z 2) with 2%Q in Hf.
  assert (Hpre : (floorQ (rand (S (S (S n))) * 2) + 8 == 8
                  \/ floorQ (rand (S (S (S n))) * 2) + 8 == 9)%Q).
  { unfold floorQ.
    assert (Hk : (Qfloor (rand (S (S (S n))) * 2) = 0
                  \/ Qfloor (rand (S (S (S n))) * 2) = 1)%Z) by lia.
    destruct Hk as [-> | ->]; [left | right]; reflexivity. }
  repeat split; auto;
    match goal with
    | |- context [Qltb 0.5 ?u] => destruct (Qltb 0.5 u)
    end; [left | right | left | right | left | right | left | right
          | left | right | left | right]; ring.
Qed.

Lemma genResponse_spec tour i st :
  exists r anns,
    extends st (snd (genResponse rand tour i st)) [r] anns
    /\ SurveyResponse.id r = responseIdOf tour i
    /\ generatedFor tour r
    /\ Forall2 annotates anns (filter isBelow8 [r]).
Proof using valid.
  unfold genResponse. unfold bind at 1.
  destruct (genOverall_range st) as (k & Hk & Hov).
  rewrite genOverall_run in *. cbn [fst] in Hov.
  set (overall := if Qltb 0.3 (rand (draws st))
                  then (floorQ (rand (S (draws st)) * 3) + 7)%Q
                  else (floorQ (rand (S (draws st)) * 3) + 5)%Q) in *.
  unfold bind at 1.
  destruct (genScores_spec overall
              (mkGenState (genResponses st) (genAnnotations st) (2 + draws st)))
    as (s & Hs & Hso & Hgen); [now exists k|].
  rewrite Hs. unfold bind at 1. unfold pushResponse at 1.
  cbn [genResponses genAnnotations draws].
  set (r := SurveyResponse.mk ("r-" ++ Tour.id tour ++ "-" ++ showNat i)%string
              (Tour.id tour) (Tour.startDate tour) s (genComments overall)
              "weroad.com").
  exists r.
  assert (Hr : overallOf r = overall) by exact Hso.
  assert (Hb : isBelow8 r = Qltb overall 8).
  { unfold isBelow8. cbn [r SurveyResponse.scores]. now rewrite Hso. }
  cbn [filter]. rewrite Hb.
  destruct (Qltb overall 8).
  - destruct (genAnnotation_spec ("r-" ++ Tour.id tour ++ "-" ++ showNat i)%string
                overall
                (mkGenState (genResponses st ++ [r]) (genAnnotations st)
                   (7 + (2 + draws st)))
                r eq_refl Hr) as (a & Ha & Hann).
    cbn [genResponses genAnnotations draws] in Ha.
    exists [a]. rewrite Ha. split; [|split; [|split]].
    + split; reflexivity.
    + reflexivity.
    + split; [reflexivity | split; [reflexivity | exact Hgen]].
    + constructor; [exact Hann | constructor].
  - exists []. cbn [ret snd]. split; [|split; [|split]].
    + split; cbn [genResponses genAnnotations]; auto using app_nil_r.
    + reflexivity.
    + split; [reflexivity | split; [reflexivity | exact Hgen]].
    + constructor.
Qed.

Lemma extends_trans st st1 st2 rs1 anns1 rs2 anns2 :
  extends st st1 rs1 anns1 -> extends st1 st2 rs2 anns2 ->
  extends st st2 (rs1 ++ rs2) (anns1 ++ anns2).
Proof using Type.
  intros [H1 H2] [H3 H4]. split; rewrite ?H3, ?H4, ?H1, ?H2, <- app_assoc; auto.
Qed.

Lemma forLoop_spec tour count from st :
  exists rs anns,
    extends st (snd (forLoop count from (genResponse rand tour) st)) rs anns
    /\ map SurveyResponse.id rs = map (responseIdOf tour) (seq from count)
    /\ Forall (generatedFor tour) rs
    /\ Forall2 annotates anns (filter isBelow8 rs).
Proof using valid.
  revert from st. induction count as [|count IH]; intros from st.
  - exists [], []. cbn [forLoop ret snd].
    split; [split; now rewrite app_nil_r|].
    split; [reflexivity|]. split; constructor.
  - cbn [forLoop]. unfold bind at 1.
    destruct (genResponse_spec tour from st)
      as (r & a1 & Hext & Hid & Hgen & Hann).
    destruct (genResponse rand tour from st) as [[] st1]. cbn [snd] in Hext.
    destruct (IH (S from) st1) as (rs & a2 & Hext' & Hlen & Hall & Hanns).
    exists ([r] ++ rs), (a1 ++ a2). split; [|split; [|split]].
    + eapply extends_trans; eauto.
    + simpl. now rewrite Hlen, Hid.
    + constructor; auto.
    + rewrite filter_app. now apply Forall2_app.
Qed.

Lemma genTour_spec tour st :
  exists rs anns,
    extends st (snd (genTour rand tour st)) rs anns
    /\ 3 <= List.length rs <= 7
    /\ map SurveyResponse.id rs
       = map (responseIdOf tour) (seq 0 (List.length rs))
    /\ Forall (generatedFor tour) rs
    /\ Forall2 annotates anns (filter isBelow8 rs).
Proof using valid.
  unfold genTour. unfold bind at 1. unfold random at 1.
  destruct (forLoop_spec tour
              (Z.to_nat (Qfloor (rand (draws st) * 5) + 3)) 0
              (mkGenState (genResponses st) (genAnnotations st) (S (draws st))))
    as (rs & anns & Hext & Hlen & Hall & Hanns).
  assert (Hcount : List.length rs = Z.to_nat (Qfloor (rand (draws st) * 5) + 3)).
  { rewrite <- (length_map SurveyResponse.id), Hlen, length_map.
    apply length_seq. }
  exists rs, anns. split; [exact Hext|]. split; [|split; [|split]]; auto.
  - destruct (valid (draws st)) as [H0 H1].
    assert (Hf := floor_scaled (rand (draws st)) 5 ltac:(lia) H0 H1).
    change (inject_Z 5) with 5%Q in Hf. lia.
  - now rewrite Hcount.
Qed.

Lemma showNat_length i : i < 7 -> String.length (showNat i) = 1.
Proof using Type.
  intros Hi. do 7 (destruct i as [|i]; [reflexivity|]). lia.
Qed.

Lemma responseIdOf_inj t t' i i' :
  i < 7 -> i' < 7 -> responseIdOf t i = responseIdOf t' i' ->
  Tour.id t = Tour.id t' /\ i = i'.
Proof using Type.
  intros Hi Hi' E. unfold responseIdOf in E. cbn [String.append] in E.
  injection E as E.
  apply string_app_inj_r in E as [E1 E2].
  - split; auto. cbn [String.append] in E2. injection E2 as E2.
    unfold showNat in E2.
    assert (Some (Nat.to_uint i) = Some (Nat.to_uint i')) as [= H]
      by (rewrite <- !NilEmpty.usu; now rewrite E2).
    now apply DecimalNat.Unsigned.to_uint_inj.
  - cbn [String.append String.length]. now rewrite !showNat_length.
Qed.

Lemma forEachTour_spec tours st :
  exists rs anns,
    extends st (snd (forEachTour rand tours st)) rs anns
    /\ Forall
         (fun r =>
            exists t i,
              In t tours /\ i < 7
              /\ SurveyResponse.id r = responseIdOf t i
              /\ generatedFor t r)
         rs
    /\ Forall2 annotates anns (filter isBelow8 rs)
    /\ (forall x,
          3 * count_occ string_dec (map Tour.id tours) x
          <= List.length
               (filter (fun r => String.eqb (SurveyResponse.tourId r) x) rs)
          <= 7 * count_occ string_dec (map Tour.id tours) x)
    /\ (NoDup (map Tour.id tours) -> NoDup (map SurveyResponse.id rs)).
Proof using valid.
  revert st. induction tours as [|t tours IH]; intros st.
  - exists [], []. cbn [forEachTour ret snd].
    split; [split; now rewrite app_nil_r|].
    split; [constructor|]. split; [constructor|].
    split; [intros x; simpl; lia | constructor].
  - cbn [forEachTour]. unfold bind at 1.
    destruct (genTour_spec t st)
      as (rs1 & a1 & Hext & Hlen & Hids & Hall & Hanns).
    destruct (genTour rand t st) as [[] st1]. cbn [snd] in Hext.
    destruct (IH st1) as (rs2 & a2 & Hext' & Hall' & Hanns' & Hcount & Hnd).
    assert (Hall1 : Forall
                      (fun r =>
                         exists i,
                           i < 7 /\ SurveyResponse.id r = responseIdOf t i
                           /\ generatedFor t r)
                      rs1).
    { apply Forall_forall. intros r Hr.
      destruct (In_nth rs1 r r Hr) as (i & Hi & Hnth).
      exists i. split; [lia|]. split.
      - assert (H := f_equal (fun l => nth i l "") Hids). cbn beta in H.
        rewrite (nth_indep _ "" (SurveyResponse.id r)) in H
          by now rewrite length_map.
        rewrite map_nth, Hnth in H. rewrite H.
        rewrite (nth_indep _ "" (responseIdOf t 0))
          by now rewrite length_map, length_seq.
        now rewrite map_nth, seq_nth.
      - rewrite Forall_forall in Hall. now apply Hall. }
    exists (rs1 ++ rs2), (a1 ++ a2). split; [|split; [|split; [|split]]].
    + eapply extends_trans; eauto.
    + apply Forall_app. split.
      * eapply Forall_impl; [|exact Hall1]. intros r (i & Hi & Hid & Hr).
        exists t, i. split; [now left | auto].
      * eapply Forall_impl; [|exact Hall']. intros r (t' & i & Ht' & Hr).
        exists t', i. split; [now right | exact Hr].
    + rewrite filter_app. now apply Forall2_app.
    + intros x. rewrite filter_app, length_app. specialize (Hcount x).
      cbn [map count_occ].
      destruct (string_dec (Tour.id t) x) as [E|E].
      * rewrite filter_all_true.
        -- lia.
        -- intros r Hr. rewrite Forall_forall in Hall.
           destruct (Hall r Hr) as [Hid _]. rewrite Hid. now apply String.eqb_eq.
      * rewrite filter_none.
        -- simpl. lia.
        -- intros r Hr. rewrite Forall_forall in Hall.
           destruct (Hall r Hr) as [Hid _]. rewrite Hid. now apply String.eqb_neq.
    + intros Hts. cbn [map] in Hts. inversion Hts as [|? ? Hnt Hts']; subst.
      rewrite map_app. apply NoDup_app.
      * rewrite Hids. apply Finite.Injective_map_NoDup_in; [|apply seq_NoDup].
        intros i j Hi Hj E. apply in_seq in Hi, Hj.
        apply responseIdOf_inj in E; [tauto | lia | lia].
      * now apply Hnd.
      * intros x Hx1 Hx2.
        apply in_map_iff in Hx1 as (r1 & <- & Hr1).
        apply in_map_iff in Hx2 as (r2 & E & Hr2).
        rewrite Forall_forall in Hall1, Hall'.
        destruct (Hall1 r1 Hr1) as (i1 & Hi1 & Hid1 & _).
        destruct (Hall' r2 Hr2) as (t2 & i2 & Ht2 & Hi2 & Hid2 & _).
        rewrite Hid1, Hid2 in E. apply responseIdOf_inj in E as [E _]; auto.
        apply Hnt. rewrite <- E. now apply in_map.
Qed.
End GeneratorFacts.

Lemma generateSurveys_spec rand tours :
  validOracle rand ->
  Forall
    (fun r =>
       exists t i,
         In t tours /\ i < 7
         /\ SurveyResponse.id r = responseIdOf t i
         /\ generatedFor t r)
    (fst (generateSurveys rand tours))
  /\ Forall2 annotates (snd (generateSurveys rand tours))
       (filter isBelow8 (fst (generateSurveys rand tours)))
  /\ (forall x,
        3 * count_occ string_dec (map Tour.id tours) x
        <= List.length
             (filter (fun r => String.eqb (SurveyResponse.tourId r) x)
                (fst (generateSurveys rand tours)))
        <= 7 * count_occ string_dec (map Tour.id tours) x)
  /\ (NoDup (map Tour.id tours) ->
      NoDup (map SurveyResponse.id (fst (generateSurveys rand tours)))).
Proof.
  intros valid. unfold generateSurveys. cbn [fst snd].
  destruct (forEachTour_spec rand valid tours (mkGenState [] [] 0))
    as (rs & anns & [Hr Ha] & H).
  rewrite Hr, Ha. exact H.
Qed.

Lemma cycleOracle_valid : validOracle cycleOracle.
Proof.
  intros n. unfold cycleOracle.
  assert (H := Nat.mod_upper_bound n 10 ltac:(lia)).
  assert (H0 : (inject_Z 0 <= inject_Z (Z.of_nat (n mod 10)))%Q)
    by (rewrite <- Zle_Qle; lia).
  assert (H1 : (inject_Z (Z.of_nat (n mod 10)) < inject_Z 10)%Q)
    by (rewrite <- Zlt_Qlt; lia).
  change (inject_Z 0) with 0%Q in H0. change (inject_Z 10) with 10%Q in H1.
  split.
  - apply Qle_shift_div_l; lra.
  - apply Qlt_shift_div_r; lra.
Qed.

(** X19: whenever [Math.random] returns numbers in [0, 1), every
    generated response belongs to one of the tours, is named after that
    tour and an index below 7, is dated at the start of that tour, and has
    an integer overall score from 5 to 9 with the other scores at most one
    away from it (8 or 9 for the information before departure). *)
Theorem generated_responses_in_range (rand : nat -> Q) (tours : list Tour.t) :
  validOracle rand ->
  Forall
    (fun r =>
       exists t i,
         In t tours /\ i < 7
         /\ SurveyResponse.id r = responseIdOf t i
         /\ generatedFor t r)
    (fst (generateSurveys rand tours)).
Proof. intros valid. now apply generateSurveys_spec. Qed.

Lemma generated_responses_in_range_witness :
  Forall
    (fun r =>
       exists t i,
         In t twoTours /\ i < 7
         /\ SurveyResponse.id r = responseIdOf t i
         /\ generatedFor t r)
    (fst (generateSurveys cycleOracle twoTours))
  /\ List.length (fst (generateSurveys cycleOracle twoTours)) = 7.
Proof.
  split.
  - apply (generated_responses_in_range cycleOracle twoTours).
    exact cycleOracle_valid.
  - vm_compute. reflexivity.
Defined.

(** X20: whenever [Math.random] returns numbers in [0, 1), the number of
    generated responses that name a tour id lies between three and seven
    times the number of tours with that id: from 3 to 7 for the id of one
    tour, none for an id no tour has. *)
Theorem generated_responses_per_tour
    (rand : nat -> Q) (tours : list Tour.t) (x : string) :
  validOracle rand ->
  3 * count_occ string_dec (map Tour.id tours) x
  <= List.length
       (filter (fun r => String.eqb (SurveyResponse.tourId r) x)
          (fst (generateSurveys rand tours)))
  <= 7 * count_occ string_dec (map Tour.id tours) x.
Proof. intros valid. now apply generateSurveys_spec. Qed.

Lemma generated_responses_per_tour_witness :
  3 * 1
  <= List.length
       (filter (fun r => String.eqb (SurveyResponse.tourId r) "t-i3-w0")
          (fst (generateSurveys cycleOracle twoTours)))
  <= 7 * 1.
Proof.
  apply (generated_responses_per_tour cycleOracle twoTours "t-i3-w0").
  exact cycleOracle_valid.
Defined.

(** X21: whenever [Math.random] returns numbers in [0, 1), the generated
    annotations are, in order, one for each generated response below 8
    and none else; each names its response, has the severity of the score
    band (HIGH below 6, MEDIUM below 7, LOW otherwise), takes its product
    tags from the three product tags and its coordinator tag from the one
    coordinator tag, each at most once and in that order, and has a
    confidence of at least 0.8 and at most 1. *)
Theorem generated_annotations_match_low_scores
    (rand : nat -> Q) (tours : list Tour.t) :
  validOracle rand ->
  Forall2 annotates (snd (generateSurveys rand tours))
    (filter isBelow8 (fst (generateSurveys rand tours))).
Proof. intros valid. now apply generateSurveys_spec. Qed.

Lemma generated_annotations_match_low_scores_witness :
  Forall2 annotates (snd (generateSurveys cycleOracle twoTours))
    (filter isBelow8 (fst (generateSurveys cycleOracle twoTours)))
  /\ List.length (snd (generateSurveys cycleOracle twoTours)) = 2.
Proof.
  split.
  - apply (generated_annotations_match_low_scores cycleOracle twoTours).
    exact cycleOracle_valid.
  - vm_compute. reflexivity.
Defined.

Lemma Forall2_In_l {A B : Type} (R : A -> B -> Prop) l1 l2 x :
  Forall2 R l1 l2 -> In x l1 -> exists y, In y l2 /\ R x y.
Proof.
  induction 1 as [|a b l1 l2 Hab _ IH]; simpl; [tauto|].
  intros [<-|Hin].
  - exists b. auto.
  - destruct (IH Hin) as (y & Hy & Hr). exists y. auto.
Qed.

Lemma Forall2_In_r {A B : Type} (R : A -> B -> Prop) l1 l2 y :
  Forall2 R l1 l2 -> In y l2 -> exists x, In x l1 /\ R x y.
Proof.
  induction 1 as [|a b l1 l2 Hab _ IH]; simpl; [tauto|].
  intros [<-|Hin].
  - exists a. auto.
  - destruct (IH Hin) as (x & Hx & Hr). exists x. auto.
Qed.

Lemma findAnnotation_paired db r :
  NoDup (map SurveyResponse.id (surveyResponses db)) ->
  Forall2 annotates (annotations db) (filter isBelow8 (surveyResponses db)) ->
  In r (surveyResponses db) ->
  match findAnnotation db r with
  | Some a => isBelow8 r = true /\ annotates a r
  | None => isBelow8 r = false
  end.
Proof.
  intros Hnd Hpair Hr. unfold findAnnotation.
  destruct (find _ (annotations db)) as [a|] eqn:E.
  - apply find_some in E as [Ha Hid]. apply String.eqb_eq in Hid.
    destruct (Forall2_In_l _ _ _ _ Hpair Ha) as (r' & Hr' & Hann).
    apply filter_In in Hr' as [Hin Hlow].
    assert (r' = r).
    { apply (NoDup_map_inj SurveyResponse.id (surveyResponses db)); auto.
      destruct Hann as [Hid' _]. congruence. }
    subst r'. auto.
  - destruct (isBelow8 r) eqn:Hlow; auto. exfalso.
    assert (Hin : In r (filter isBelow8 (surveyResponses db)))
      by (apply filter_In; auto).
    destruct (Forall2_In_r _ _ _ _ Hpair Hin) as (a & Ha & Hann).
    apply (find_none _ _ E) in Ha. destruct Hann as [Hid _].
    rewrite Hid, String.eqb_refl in Ha. discriminate.
Qed.

(** X22: whenever [Math.random] returns numbers in [0, 1) and the tour
    ids are pairwise distinct, the lookup of the annotation of a generated
    response finds one exactly when the response scores below 8, and the
    one it finds is the one generated for that response; so with the
    below-8 filter on every kept response is annotated. *)
Theorem generated_annotation_iff_below8
    (rand : nat -> Q) (ds : list Destination.t) (its : list Itinerary.t)
    (ts : list Tour.t) (dest : string) (pl : option ProductLine) :
  validOracle rand ->
  NoDup (map Tour.id ts) ->
  Forall
    (fun r =>
       match findAnnotation (generatedDb rand ds its ts) r with
       | Some a => isBelow8 r = true /\ annotates a r
       | None => isBelow8 r = false
       end)
    (surveyResponses (generatedDb rand ds its ts))
  /\ annotatedCount (generatedDb rand ds its ts)
       (filteredData (generatedDb rand ds its ts) (mkFilters true dest pl))
     = List.length
         (filteredData (generatedDb rand ds its ts) (mkFilters true dest pl)).
Proof.
  intros valid Hts.
  destruct (generateSurveys_spec rand ts valid) as (_ & Hpair & _ & Hnd).
  assert (Hall : forall r,
             In r (surveyResponses (generatedDb rand ds its ts)) ->
             match findAnnotation (generatedDb rand ds its ts) r with
             | Some a => isBelow8 r = true /\ annotates a r
             | None => isBelow8 r = false
             end).
  { intros r Hr. apply findAnnotation_paired; auto. }
  split; [now apply Forall_forall|].
  unfold annotatedCount. f_equal. apply filter_all_true. intros r Hr.
  assert (Hlow := filteredData_below8 _ (mkFilters true dest pl) r eq_refl Hr).
  apply filteredData_in_dialog in Hr. unfold dialogFilteredData in Hr.
  apply filter_In in Hr as [Hr _]. specialize (Hall r Hr).
  unfold isAnnotated. destruct (findAnnotation _ r); congruence.
Qed.

Lemma generated_annotation_iff_below8_witness :
  annotatedCount (generatedDb cycleOracle [] [] twoTours)
    (filteredData (generatedDb cycleOracle [] [] twoTours)
       (mkFilters true "All" None))
  = 2.
Proof.
  rewrite (proj2 (generated_annotation_iff_below8 cycleOracle [] [] twoTours
                    "All" None cycleOracle_valid
                    ltac:(repeat constructor; simpl; intuition discriminate))).
  vm_compute. reflexivity.
Defined.

Lemma subsequence_app {A : Type} (l1 f1 l2 f2 : list A) :
  subsequence l1 f1 -> subsequence l2 f2 -> subsequence (l1 ++ l2) (f1 ++ f2).
Proof.
  induction 1; intros H2; simpl; auto; now constructor; auto.
Qed.

Lemma annotates_NoDup a r : annotates a r -> NoDup (allTags a).
Proof.
  intros (_ & _ & Hp & Hc & _). unfold allTags.
  eapply subsequence_NoDup; [apply subsequence_app; eassumption|].
  repeat constructor; simpl; intuition discriminate.
Qed.

Lemma issueResponses_exact db flt tag :
  (forall r, In r (dialogFilteredData db flt) -> NoDup (responseTags db r)) ->
  List.length (issueResponses db flt tag)
  = countOf tag (issuesCountOf db (dialogFilteredData db flt)).
Proof.
  intros Hnd. rewrite issueResponses_length.
  unfold issuesCountOf. rewrite issuesCountOf_measure. simpl.
  induction (dialogFilteredData db flt) as [|r rs IH]; simpl; auto.
  destruct (carries_count db tag r) as [_ H].
  rewrite H by (apply Hnd; now left).
  rewrite IH; auto. intros; apply Hnd; now right.
Qed.

(** X23: whenever [Math.random] returns numbers in [0, 1), no generated
    annotation repeats a tag, so on generated data a response adds at
    most one to the counter of a tag, and the total of the issue dialog
    equals the count of the issue table over the same responses. *)
Theorem generated_tags_are_distinct
    (rand : nat -> Q) (ds : list Destination.t) (its : list Itinerary.t)
    (ts : list Tour.t) (flt : Filters) (tag : string) :
  validOracle rand ->
  Forall (fun a => NoDup (allTags a)) (snd (generateSurveys rand ts))
  /\ (forall r, NoDup (responseTags (generatedDb rand ds its ts) r))
  /\ List.length (issueResponses (generatedDb rand ds its ts) flt tag)
     = countOf tag
         (issuesCountOf (generatedDb rand ds its ts)
            (dialogFilteredData (generatedDb rand ds its ts) flt)).
Proof.
  intros valid.
  destruct (generateSurveys_spec rand ts valid) as (_ & Hpair & _).
  assert (Hall : Forall (fun a => NoDup (allTags a)) (snd (generateSurveys rand ts))).
  { apply Forall_forall. intros a Ha.
    destruct (Forall2_In_l _ _ _ _ Hpair Ha) as (r & _ & Hann).
    now apply annotates_NoDup in Hann. }
  assert (Htags : forall r, NoDup (responseTags (generatedDb rand ds its ts) r)).
  { intros r. unfold responseTags, findAnnotation.
    destruct (find _ _) as [a|] eqn:E; [|constructor].
    apply find_some in E as [Ha _]. rewrite Forall_forall in Hall.
    now apply Hall. }
  split; [exact Hall|]. split; [exact Htags|].
  apply issueResponses_exact. intros r _. apply Htags.
Qed.

Lemma generated_tags_are_distinct_witness :
  Forall (fun a => NoDup (allTags a)) (snd (generateSurveys cycleOracle twoTours))
  /\ snd (generateSurveys cycleOracle twoTours) <> [].
Proof.
  split.
  - apply (generated_tags_are_distinct cycleOracle [] [] twoTours
             defaultFilters "cleanliness_hygiene" cycleOracle_valid).
  - vm_compute. discriminate.
Defined.

(** ** Rows and lookups *)

(** X24: when tour ids and itinerary ids are pairwise distinct, a
    response that the ranking counts for a destination is resolved to that
    same destination by the lookup chain of the dialogs, which follows the
    first tour and the first itinerary with the id. *)
Theorem ranking_and_lookup_agree
    (db : Dataset) (flt : Filters) (dest : Destination.t) :
  NoDup (map Tour.id (tours db)) ->
  NoDup (map Itinerary.id (itineraries db)) ->
  Forall (fun r => destinationIdOf db r = Some (Destination.id dest))
    (destResponses db flt dest).
Proof.
  intros Ht Hi. apply Forall_forall. intros r Hr.
  apply destinationIdOf_chain; auto.
  unfold destResponses in Hr. apply filter_In in Hr as [_ Hr].
  now apply includes_In in Hr.
Qed.

Lemma ranking_and_lookup_agree_witness :
  Forall (fun r => destinationIdOf trendDb r = Some "d1")
    (destResponses trendDb defaultFilters bali)
  /\ List.length (destResponses trendDb defaultFilters bali) = 2.
Proof.
  split; [|reflexivity].
  apply (ranking_and_lookup_agree trendDb defaultFilters bali).
  - vm_compute. repeat constructor; simpl; intuition discriminate.
  - vm_compute. repeat constructor; simpl; intuition discriminate.
Defined.

Lemma map_dest_mapDestinations db flt rand ds calls :
  map DestStat.dest (mapDestinations db flt rand ds calls) = ds.
Proof.
  revert calls. induction ds as [|d ds IH]; intros calls; simpl; auto.
  now rewrite IH.
Qed.

Lemma distinct_keys_survive_filter {A : Type} (key : A -> string)
    (keep : A -> bool) (rows : list A) :
  NoDup (map key rows) -> NoDup (map key (filter keep rows)).
Proof.
  intros Hnd. induction rows as [|row rows IH]; simpl in *; auto.
  inversion Hnd as [|? ? Hrow Hrows]; subst.
  destruct (keep row); simpl; auto. constructor; auto.
  intros Hin. apply Hrow. apply in_map_iff in Hin as (y & E & Hy).
  apply filter_In in Hy as [Hy _]. rewrite <- E. now apply in_map.
Qed.

(** X25: when the destination ids are pairwise distinct, no destination
    has two rows in the ranking, and the ranking has at most as many rows
    as there are destinations. *)
Theorem ranking_lists_each_destination_once
    (db : Dataset) (flt : Filters) (rand : nat -> Q) :
  NoDup (map Destination.id (destinations db)) ->
  NoDup (map (fun row => Destination.id (DestStat.dest row))
           (destStats db flt rand))
  /\ List.length (destStats db flt rand) <= List.length (destinations db).
Proof.
  intros Hnd. unfold destStats. split.
  - eapply Permutation_NoDup.
    + apply Permutation_map, js_sort_perm.
    + apply distinct_keys_survive_filter.
      rewrite <- (map_map DestStat.dest Destination.id).
      now rewrite map_dest_mapDestinations.
  - rewrite <- (Permutation_length (js_sort_perm _ _)).
    rewrite filter_length_le.
    rewrite <- (length_map DestStat.dest).
    now rewrite map_dest_mapDestinations.
Qed.

Lemma ranking_lists_each_destination_once_witness :
  NoDup (map (fun row => Destination.id (DestStat.dest row))
           (destStats trendDb defaultFilters halfOracle))
  /\ List.length (destStats trendDb defaultFilters halfOracle) <= 3.
Proof.
  apply (ranking_lists_each_destination_once trendDb defaultFilters halfOracle).
  vm_compute. repeat constructor; simpl; intuition discriminate.
Defined.
